(** * Ubuntu image fetcher: a shallow embedding of [ubuntu_image_fetcher.py]

    The development follows the Python source function by function.  The
    interpreter and library operations the source calls ([str.lower],
    [str.strip], [int], [urllib.parse.urlparse], [os.path.splitext],
    [hashlib.md5], the file system and the network) are modelled first; the
    methods of [UbuntuImageFetcher] come next, in a small state, log and
    exception monad; the theorems come last. *)

From Stdlib Require Import ZArith Ascii Lia.
From Stdlib.Strings Require Import Byte.
From stdpp Require Import base option list strings gmap pretty.

Local Open Scope Z_scope.

(** ** Python strings

    A Python [str] is modelled as a Rocq [string] whose characters are the
    code points 0..255 (Latin-1).  That is the range of HTTP header values as
    [http.client] decodes them, and it covers every URL that [requests] has
    prepared (those are ASCII); the text typed by the user is taken in the
    same range. *)
Module Py.

Definition ord (c : ascii) : Z := Z.of_N (N_of_ascii c).
Definition chr (n : Z) : ascii := ascii_of_N (Z.to_N n).

(** [str.lower()] on one Latin-1 character: A..Z and the accented capitals
    U+00C0..U+00DE (U+00D7, the multiplication sign, apart) move up by 32. *)
Definition lower_char (c : ascii) : ascii :=
  let n := ord c in
  if ((65 <=? n) && (n <=? 90)) || ((192 <=? n) && (n <=? 222) && negb (n =? 215))
  then chr (n + 32) else c.

Fixpoint lower (s : string) : string :=
  match s with
  | EmptyString => EmptyString
  | String c s' => String (lower_char c) (lower s')
  end.

(** [str.isspace()] for one Latin-1 character. *)
Definition isspace (c : ascii) : bool :=
  let n := ord c in
  ((9 <=? n) && (n <=? 13)) || ((28 <=? n) && (n <=? 32)) || (n =? 133) || (n =? 160).

Fixpoint lstrip (s : string) : string :=
  match s with
  | EmptyString => EmptyString
  | String c s' => if isspace c then lstrip s' else s
  end.

Fixpoint rstrip (s : string) : string :=
  match s with
  | EmptyString => EmptyString
  | String c s' =>
      match rstrip s' with
      | EmptyString => if isspace c then EmptyString else String c EmptyString
      | r => String c r
      end
  end.

(** [s.strip()] *)
Definition strip (s : string) : string := rstrip (lstrip s).

(** Truth value of a string: [if s:] holds for the non-empty ones. *)
Definition truthy (s : string) : bool :=
  match s with EmptyString => false | String _ _ => true end.

(** [sub in s] *)
Fixpoint contains (sub s : string) : bool :=
  String.prefix sub s
  || match s with
     | EmptyString => false
     | String _ s' => contains sub s'
     end.

(** [c in s] for a single character. *)
Fixpoint has_char (c : ascii) (s : string) : bool :=
  match s with
  | EmptyString => false
  | String c' s' => Ascii.eqb c c' || has_char c s'
  end.

Definition len (s : string) : Z := Z.of_nat (String.length s).

(** [s.find(c)] and [s.rfind(c)] for a single character; -1 when absent. *)
Fixpoint find (c : ascii) (s : string) : Z :=
  match s with
  | EmptyString => -1
  | String c' s' =>
      if Ascii.eqb c c' then 0
      else let i := find c s' in if i <? 0 then -1 else i + 1
  end.

Fixpoint rfind (c : ascii) (s : string) : Z :=
  match s with
  | EmptyString => -1
  | String c' s' =>
      let i := rfind c s' in
      if 0 <=? i then i + 1
      else if Ascii.eqb c c' then 0 else -1
  end.

(** [s.find(c, start)] with [0 <= start]. *)
Definition find_from (c : ascii) (s : string) (start : Z) : Z :=
  let i := find c (String.substring (Z.to_nat start) (String.length s) s) in
  if i <? 0 then -1 else start + i.

(** [s[:i]], [s[i:]] and [s[i:j]] for indices [0 <= i <= j]. *)
Definition slice_to (s : string) (i : Z) : string :=
  String.substring 0 (Z.to_nat i) s.
Definition slice_from (s : string) (i : Z) : string :=
  String.substring (Z.to_nat i) (String.length s) s.
Definition slice (s : string) (i j : Z) : string :=
  String.substring (Z.to_nat i) (Z.to_nat (j - i)) s.

(** [s.replace(c, empty)] for a single character [c]: every [c] is dropped. *)
Fixpoint remove_char (c : ascii) (s : string) : string :=
  match s with
  | EmptyString => EmptyString
  | String c' s' =>
      if Ascii.eqb c c' then remove_char c s' else String c' (remove_char c s')
  end.

(** *** [int(s)]

    White space around the number is skipped, an optional sign is read, and
    the rest must be decimal digits, where single underscores may stand
    between two digits.  The white space of [int] is narrower than that of
    [strip]: the separators U+001C..U+001F do not count.  CPython refuses
    texts of more than [int_max_str_digits] digits (4300 unless the
    interpreter is configured otherwise).  [None] stands for [ValueError]. *)
Definition int_isspace (c : ascii) : bool :=
  let n := ord c in
  ((9 <=? n) && (n <=? 13)) || (n =? 32) || (n =? 133) || (n =? 160).

Fixpoint int_lstrip (s : string) : string :=
  match s with
  | EmptyString => EmptyString
  | String c s' => if int_isspace c then int_lstrip s' else s
  end.

Fixpoint int_rstrip (s : string) : string :=
  match s with
  | EmptyString => EmptyString
  | String c s' =>
      match int_rstrip s' with
      | EmptyString => if int_isspace c then EmptyString else String c EmptyString
      | r => String c r
      end
  end.

Definition digit (c : ascii) : option Z :=
  let n := ord c in
  if (48 <=? n) && (n <=? 57) then Some (n - 48) else None.

Definition int_max_str_digits : nat := 4300.

(** [prev_us] tells that the previous character was an underscore; the scan
    starts with it set, which refuses both the empty text and a leading
    underscore, as a trailing underscore is refused at the end. *)
Fixpoint int_digits (prev_us : bool) (acc : Z) (n : nat) (s : string)
  : option (Z * nat) :=
  match s with
  | EmptyString => if prev_us then None else Some (acc, n)
  | String c s' =>
      if Ascii.eqb c "_"
      then (if prev_us then None else int_digits true acc n s')
      else match digit c with
           | Some d => int_digits false (10 * acc + d) (S n) s'
           | None => None
           end
  end.

Definition int_unsigned (s : string) : option Z :=
  match int_digits true 0 0%nat s with
  | Some (v, n) => if (n <=? int_max_str_digits)%nat then Some v else None
  | None => None
  end.

Definition int (s : string) : option Z :=
  match int_rstrip (int_lstrip s) with
  | String "+" s' => int_unsigned s'
  | String "-" s' => Z.opp <$> int_unsigned s'
  | s' => int_unsigned s'
  end.

End Py.

(** ** [urllib.parse.urlparse(url).path]

    The model follows [urlsplit] and [urlparse] of CPython's [urllib.parse]
    (3.11): leading control characters and spaces are dropped, tabs and line
    breaks are removed, a scheme is split off at the first colon when
    everything before it is a scheme character, a network location follows
    [//] up to the first of [/?#], and fragment, query and parameters are cut
    from the rest.  [None] stands for the [ValueError] raised on a network
    location whose square brackets do not match or do not hold an IPv6 or
    IPvFuture literal.  The last check of [urlsplit], on the NFKC form of a
    network location that is not ASCII, never fires on Latin-1 text and is
    left out. *)
Module UrlParse.

(** [s.partition(c)]: the text before the first [c], whether [c] was found,
    and the text after it. *)
Definition partition (c : ascii) (s : string) : string * bool * string :=
  let i := Py.find c s in
  if i <? 0 then (s, false, EmptyString)
  else (Py.slice_to s i, true, Py.slice_from s (i + 1)).

(** [s.rpartition(c)[2]] *)
Definition rpartition_tail (c : ascii) (s : string) : string :=
  let i := Py.rfind c s in
  if i <? 0 then s else Py.slice_from s (i + 1).

(** [s.split(c)] *)
Fixpoint split (c : ascii) (s : string) : list string :=
  match s with
  | EmptyString => [EmptyString]
  | String a s' =>
      match split c s' with
      | p :: ps => if Ascii.eqb a c then EmptyString :: p :: ps else String a p :: ps
      | [] => []
      end
  end.

Definition is_ascii_digit (c : ascii) : bool :=
  (48 <=? Py.ord c) && (Py.ord c <=? 57).

Definition is_hex_digit (c : ascii) : bool :=
  let n := Py.ord c in
  is_ascii_digit c || ((65 <=? n) && (n <=? 70)) || ((97 <=? n) && (n <=? 102)).

Fixpoint all_chars (f : ascii → bool) (s : string) : bool :=
  match s with
  | EmptyString => true
  | String c s' => f c && all_chars f s'
  end.

Fixpoint decimal (acc : Z) (s : string) : Z :=
  match s with
  | EmptyString => acc
  | String c s' => decimal (10 * acc + (Py.ord c - 48)) s'
  end.

(** [ipaddress.IPv4Address._parse_octet] succeeds. *)
Definition octet_ok (o : string) : bool :=
  Py.truthy o
  && all_chars is_ascii_digit o
  && (Py.len o <=? 3)
  && negb (negb (String.eqb o "0") && String.prefix "0" o)
  && (decimal 0 o <=? 255).

(** [ipaddress.IPv4Address(s)] succeeds. *)
Definition ipv4_ok (s : string) : bool :=
  negb (Py.has_char "/" s)
  && Py.truthy s
  && match split "." s with
     | [a; b; c; d] => octet_ok a && octet_ok b && octet_ok c && octet_ok d
     | _ => false
     end.

(** [ipaddress.IPv6Address._parse_hextet] succeeds. *)
Definition hextet_ok (h : string) : bool :=
  all_chars is_hex_digit h && (Py.len h <=? 4) && Py.truthy h.

(** The parts of an IPv6 address after an IPv4-style suffix has been turned
    into two hextets; [None] when the suffix is no IPv4 address. *)
Definition expand_suffix (parts : list string) : option (list string) :=
  match reverse parts with
  | tail :: init =>
      if Py.has_char "." tail then
        if ipv4_ok tail then Some (reverse init ++ ["0"; "0"]) else None
      else Some parts
  | [] => Some parts
  end.

(** The positions [1 .. len - 2] of [parts] that hold an empty part. *)
Definition inner_gaps (parts : list string) : list nat :=
  filter (λ i, parts !! i = Some EmptyString) (seq 1 (length parts - 2)).

(** [ipaddress.IPv6Address._ip_int_from_string(s)] succeeds. *)
Definition ipv6_parts_ok (s : string) : bool :=
  Py.truthy s
  && let parts := split ":" s in
     (3 <=? length parts)%nat
     && match expand_suffix parts with
        | None => false
        | Some parts =>
            let n := length parts in
            (n <=? 9)%nat
            && match inner_gaps parts with
               | [] =>
                   (n =? 8)%nat && forallb hextet_ok parts
               | [skip_index] =>
                   let first_empty := bool_decide (head parts = Some EmptyString) in
                   let last_empty := bool_decide (last parts = Some EmptyString) in
                   let parts_hi := if first_empty then (skip_index - 1)%nat else skip_index in
                   let parts_lo :=
                     if last_empty then (n - skip_index - 2)%nat
                     else (n - skip_index - 1)%nat in
                   negb (first_empty && negb (parts_hi =? 0)%nat)
                   && negb (last_empty && negb (parts_lo =? 0)%nat)
                   && (parts_hi + parts_lo <=? 7)%nat
                   && forallb hextet_ok (take parts_hi parts)
                   && forallb hextet_ok (drop (n - parts_lo) parts)
               | _ => false
               end
        end.

(** [ipaddress.IPv6Address(s)] succeeds: a scope id may follow a [%]. *)
Definition ipv6_ok (s : string) : bool :=
  negb (Py.has_char "/" s)
  && let '(addr, sep, scope_id) := partition "%" s in
     (negb sep || (Py.truthy scope_id && negb (Py.has_char "%" scope_id)))
     && ipv6_parts_ok addr.

(** [re.match(r"\Av[a-fA-F0-9]+\..+\Z", s)]; [hex] tells that a hex digit
    has been read.  The text holds no line break. *)
Fixpoint ipvfuture_tail (hex : bool) (s : string) : bool :=
  match s with
  | EmptyString => false
  | String c s' =>
      if is_hex_digit c then ipvfuture_tail true s'
      else hex && Ascii.eqb c "." && Py.truthy s'
  end.

(** [_check_bracketed_host(hostname)] returns. *)
Definition bracketed_host_ok (hostname : string) : bool :=
  match hostname with
  | String "v" rest => ipvfuture_tail false rest
  | _ => if ipv4_ok hostname then false else ipv6_ok hostname
  end.

(** [_check_bracketed_netloc(netloc)] returns. *)
Definition bracketed_netloc_ok (netloc : string) : bool :=
  let hostname_and_port := rpartition_tail "@" netloc in
  let '(before_bracket, have_open_br, bracketed) :=
    partition "[" hostname_and_port in
  if have_open_br then
    if Py.truthy before_bracket then false
    else
      let '(hostname, _, port) := partition "]" bracketed in
      if Py.truthy port && negb (String.prefix ":" port) then false
      else bracketed_host_ok hostname
  else
    let '(hostname, _, _) := partition ":" hostname_and_port in
    bracketed_host_ok hostname.

Fixpoint lstrip_c0 (s : string) : string :=
  match s with
  | EmptyString => EmptyString
  | String c s' => if Py.ord c <=? 32 then lstrip_c0 s' else s
  end.

Definition is_ascii_alpha (c : ascii) : bool :=
  let n := Py.ord c in
  ((65 <=? n) && (n <=? 90)) || ((97 <=? n) && (n <=? 122)).

Definition is_scheme_char (c : ascii) : bool :=
  let n := Py.ord c in
  is_ascii_alpha c || ((48 <=? n) && (n <=? 57))
  || (n =? 43) || (n =? 45) || (n =? 46).

Definition uses_params : list string :=
  [EmptyString; "ftp"; "hdl"; "prospero"; "http"; "imap"; "https"; "shttp";
   "rtsp"; "rtspu"; "sip"; "sips"; "mms"; "sftp"; "tel"].

(** [scheme, url = url[:i].lower(), url[i+1:]] when the text up to the first
    colon is a scheme. *)
Definition split_scheme (url : string) : string * string :=
  let i := Py.find ":" url in
  match url with
  | String c0 _ =>
      if (0 <? i) && is_ascii_alpha c0 && all_chars is_scheme_char (Py.slice_to url i)
      then (Py.lower (Py.slice_to url i), Py.slice_from url (i + 1))
      else (EmptyString, url)
  | EmptyString => (EmptyString, url)
  end.

(** [_splitnetloc(url, 2)] *)
Definition splitnetloc (url : string) (start : Z) : string * string :=
  let step (delim : Z) (c : ascii) :=
    let wdelim := Py.find_from c url start in
    if 0 <=? wdelim then Z.min delim wdelim else delim in
  let delim := step (step (step (Py.len url) "/"%char) "?"%char) "#"%char in
  (Py.slice url start delim, Py.slice_from url delim).

(** [url.split(c, 1)[0]] when [c in url], else [url]. *)
Definition cut_at (c : ascii) (url : string) : string :=
  if Py.has_char c url then Py.slice_to url (Py.find c url) else url.

(** [_splitparams(url)[0]] *)
Definition splitparams (url : string) : string :=
  if Py.has_char "/" url then
    let i := Py.find_from ";" url (Py.rfind "/" url) in
    if i <? 0 then url else Py.slice_to url i
  else Py.slice_to url (Py.find ";" url).

Definition path (url : string) : option string :=
  let url := lstrip_c0 url in
  let url := Py.remove_char "010" (Py.remove_char "013" (Py.remove_char "009" url)) in
  let '(scheme, url) := split_scheme url in
  let split :=
    if String.prefix "//" url then
      let '(netloc, rest) := splitnetloc url 2 in
      if (Py.has_char "[" netloc && negb (Py.has_char "]" netloc))
         || (Py.has_char "]" netloc && negb (Py.has_char "[" netloc))
      then None
      else if Py.has_char "[" netloc && Py.has_char "]" netloc
              && negb (bracketed_netloc_ok netloc)
      then None
      else Some rest
    else Some url in
  match split with
  | None => None
  | Some url =>
      let url := cut_at "#" url in
      let url := cut_at "?" url in
      Some (if bool_decide (scheme ∈ uses_params) && Py.has_char ";" url
            then splitparams url else url)
  end.

End UrlParse.

(** ** [os.path] (the POSIX flavour) *)
Module OsPath.

(** [os.path.basename(p)] *)
Definition basename (p : string) : string :=
  let i := Py.rfind "/" p + 1 in
  Py.slice_from p i.

(** The loop of [genericpath._splitext] that skips the leading dots of the
    last component: [k] counts the positions left before [dotIndex]. *)
Fixpoint splitext_scan (p : string) (k : nat) (filenameIndex dotIndex : Z)
  : string * string :=
  match k with
  | O => (p, EmptyString)
  | S k' =>
      if negb (String.eqb (Py.slice p filenameIndex (filenameIndex + 1)) ".")
      then (Py.slice_to p dotIndex, Py.slice_from p dotIndex)
      else splitext_scan p k' (filenameIndex + 1) dotIndex
  end.

(** [os.path.splitext(p)] *)
Definition splitext (p : string) : string * string :=
  let sepIndex := Py.rfind "/" p in
  let dotIndex := Py.rfind "." p in
  if sepIndex <? dotIndex
  then splitext_scan p (Z.to_nat (dotIndex - (sepIndex + 1))) (sepIndex + 1) dotIndex
  else (p, EmptyString).

Definition endswith_sep (p : string) : bool :=
  String.eqb (Py.slice_from p (Py.len p - 1)) "/".

(** [os.path.join(a, b)] *)
Definition join (a b : string) : string :=
  if String.prefix "/" b then b
  else if negb (Py.truthy a) || endswith_sep a then a +:+ b
  else a +:+ "/" +:+ b.

End OsPath.

(** ** [hashlib.md5(content).hexdigest()]

    RFC 1321 on 32-bit words kept in [Z], the wrap-around written out. *)
Module MD5.

Definition mask32 : Z := 2 ^ 32 - 1.
Definition add32 (a b : Z) : Z := Z.land (a + b) mask32.
Definition not32 (a : Z) : Z := Z.lxor a mask32.
Definition rotl32 (x c : Z) : Z :=
  Z.land (Z.lor (Z.shiftl x c) (Z.shiftr x (32 - c))) mask32.

Definition shifts : list Z :=
  [7; 12; 17; 22; 7; 12; 17; 22; 7; 12; 17; 22; 7; 12; 17; 22;
   5; 9; 14; 20; 5; 9; 14; 20; 5; 9; 14; 20; 5; 9; 14; 20;
   4; 11; 16; 23; 4; 11; 16; 23; 4; 11; 16; 23; 4; 11; 16; 23;
   6; 10; 15; 21; 6; 10; 15; 21; 6; 10; 15; 21; 6; 10; 15; 21].

(** [floor(2^32 * abs(sin(i + 1)))] for [i = 0..63]. *)
Definition sines : list Z :=
  [0xd76aa478; 0xe8c7b756; 0x242070db; 0xc1bdceee; 0xf57c0faf; 0x4787c62a;
   0xa8304613; 0xfd469501; 0x698098d8; 0x8b44f7af; 0xffff5bb1; 0x895cd7be;
   0x6b901122; 0xfd987193; 0xa679438e; 0x49b40821; 0xf61e2562; 0xc040b340;
   0x265e5a51; 0xe9b6c7aa; 0xd62f105d; 0x02441453; 0xd8a1e681; 0xe7d3fbc8;
   0x21e1cde6; 0xc33707d6; 0xf4d50d87; 0x455a14ed; 0xa9e3e905; 0xfcefa3f8;
   0x676f02d9; 0x8d2a4c8a; 0xfffa3942; 0x8771f681; 0x6d9d6122; 0xfde5380c;
   0xa4beea44; 0x4bdecfa9; 0xf6bb4b60; 0xbebfbc70; 0x289b7ec6; 0xeaa127fa;
   0xd4ef3085; 0x04881d05; 0xd9d4d039; 0xe6db99e5; 0x1fa27cf8; 0xc4ac5665;
   0xf4292244; 0x432aff97; 0xab9423a7; 0xfc93a039; 0x655b59c3; 0x8f0ccc92;
   0xffeff47d; 0x85845dd1; 0x6fa87e4f; 0xfe2ce6e0; 0xa3014314; 0x4e0811a1;
   0xf7537e82; 0xbd3af235; 0x2ad7d2bb; 0xeb86d391].

Definition nthZ (l : list Z) (i : Z) : Z := nth (Z.to_nat i) l 0.

(** The four 32-bit registers. *)
Record regs := Regs { rA : Z; rB : Z; rC : Z; rD : Z }.

Definition init_regs : regs :=
  Regs 0x67452301 0xefcdab89 0x98badcfe 0x10325476.

(** One of the 64 operations on the block [m] of 16 words. *)
Definition round (m : list Z) (r : regs) (i : Z) : regs :=
  let '(Regs a b c d) := r in
  let '(f, g) :=
    if i <? 16 then (Z.lor (Z.land b c) (Z.land (not32 b) d), i)
    else if i <? 32 then
      (Z.lor (Z.land d b) (Z.land (not32 d) c), (5 * i + 1) mod 16)
    else if i <? 48 then (Z.lxor (Z.lxor b c) d, (3 * i + 5) mod 16)
    else (Z.lxor c (Z.lor b (not32 d)), (7 * i) mod 16) in
  let f := add32 (add32 (add32 f a) (nthZ sines i)) (nthZ m g) in
  Regs d (add32 b (rotl32 f (nthZ shifts i))) b c.

Definition process_block (r : regs) (m : list Z) : regs :=
  let r' := fold_left (round m) (Z.of_nat <$> seq 0 64) r in
  Regs (add32 (rA r) (rA r')) (add32 (rB r) (rB r'))
       (add32 (rC r) (rC r')) (add32 (rD r) (rD r')).

(** The [k] low bytes of [x], least significant first. *)
Fixpoint le_bytes (k : nat) (x : Z) : list Z :=
  match k with
  | O => []
  | S k' => Z.land x 255 :: le_bytes k' (Z.shiftr x 8)
  end.

(** The message, one 1 bit, zeros up to 56 modulo 64 bytes, and the length in
    bits as a 64-bit little-endian number. *)
Definition pad (msg : list Z) : list Z :=
  let n := Z.of_nat (length msg) in
  let zeros := Z.to_nat ((55 - n) mod 64) in
  msg ++ [128] ++ repeat 0 zeros ++ le_bytes 8 (Z.land (8 * n) (2 ^ 64 - 1)).

Fixpoint le_word (bs : list Z) : Z :=
  match bs with
  | [] => 0
  | b :: bs' => b + 256 * le_word bs'
  end.

(** The little-endian words of [bs], four bytes each; [k] words are read. *)
Fixpoint words (k : nat) (bs : list Z) : list Z :=
  match k with
  | O => []
  | S k' => le_word (take 4 bs) :: words k' (drop 4 bs)
  end.

(** The 64-byte blocks of [bs]; [k] blocks are read. *)
Fixpoint blocks (k : nat) (bs : list Z) : list (list Z) :=
  match k with
  | O => []
  | S k' => words 16 (take 64 bs) :: blocks k' (drop 64 bs)
  end.

Definition hex_digit (n : Z) : ascii :=
  if n <? 10 then Py.chr (48 + n) else Py.chr (87 + n).

Fixpoint hex (bs : list Z) : string :=
  match bs with
  | [] => EmptyString
  | b :: bs' =>
      String (hex_digit (Z.shiftr b 4)) (String (hex_digit (Z.land b 15)) (hex bs'))
  end.

Definition digest (content : list byte) : regs :=
  let bs := pad ((λ b, Z.of_N (Byte.to_N b)) <$> content) in
  fold_left process_block (blocks (length bs / 64) bs) init_regs.

Definition hexdigest (content : list byte) : string :=
  let '(Regs a b c d) := digest content in
  hex (le_bytes 4 a ++ le_bytes 4 b ++ le_bytes 4 c ++ le_bytes 4 d).

End MD5.

(** ** The environment: file system and network *)

(** An entry of the file system.  A regular file carries its bytes and
    whether [open(path, 'rb')] succeeds on it; a directory carries whether it
    may be listed and whether entries may be created in it. *)
Inductive node :=
| File (content : list byte) (readable : bool)
| Dir (listable writable : bool).

(** What [requests.get(url, stream=True)] hands back: status line and headers
    are there, the body is still on the wire.  [body = None] means that
    pulling the body fails (the connection breaks while reading). *)
Record response := Response {
  status_code : Z;
  headers : list (string * string);
  resp_url : string;
  body : option (list byte)
}.

Inductive reply :=
| ConnectionFailed
| Replied (r : response).

(** The state the program runs in.  [fs] maps a path, as the program spells
    it, to the entry it names; [disk_free] is the number of bytes that can
    still be written; [cwd_writable] tells whether a directory can be created
    in the working directory; [network] answers the [n]-th request of the run;
    [downloaded_hashes] is the attribute of the fetcher object. *)
Record world := World {
  fs : gmap string node;
  disk_free : nat;
  cwd_writable : bool;
  network : nat → string → reply;
  requests_sent : nat;
  downloaded_hashes : gset string
}.

(** The lines the program prints. *)
Inductive message :=
| MsgConnecting (url : string)
| MsgTooLarge
| MsgUnsafeType
| MsgDuplicate
| MsgFetched (filename : string)
| MsgSaved (filepath : string)
| MsgConnectionError
| MsgErrorOccurred
| MsgProcessing (i n : nat).

(** What the program does to its environment, in the order it does it.  A
    read carries the bytes it obtained, [None] when it failed; a write
    carries the bytes it was given and whether all of them were stored. *)
Inductive event :=
| EvPrint (m : message)
| EvRequest (url : string)
| EvReadBody (content : option (list byte))
| EvListdir (d : string)
| EvReadFile (p : string) (content : option (list byte))
| EvWriteFile (p : string) (content : list byte) (ok : bool)
| EvMakedirs (d : string).

Inductive exn := RequestException | ValueError | OSError.

Inductive result (A : Type) :=
| Ok (a : A)
| Raise (e : exn)
| OutOfFuel.
Arguments Ok {A} a.
Arguments Raise {A} e.
Arguments OutOfFuel {A}.

(** ** A state, log and exception monad *)
Definition M (A : Type) : Type := world → result A * world * list event.

Definition ret {A} (a : A) : M A := λ w, (Ok a, w, []).

Definition bind {A B} (m : M A) (k : A → M B) : M B := λ w,
  match m w with
  | (Ok a, w', evs) => let '(r, w'', evs') := k a w' in (r, w'', evs ++ evs')
  | (Raise e, w', evs) => (Raise e, w', evs)
  | (OutOfFuel, w', evs) => (OutOfFuel, w', evs)
  end.

Declare Scope py_scope.
Delimit Scope py_scope with py.
Notation "x <- m ;; k" := (bind m (λ x, k))
  (at level 100, m at next level, right associativity) : py_scope.
Notation "m ;; k" := (bind m (λ _, k))
  (at level 100, right associativity) : py_scope.
Local Open Scope py_scope.

Definition raise {A} (e : exn) : M A := λ w, (Raise e, w, []).
Definition emit (e : event) : M unit := λ w, (Ok tt, w, [e]).
Definition print (m : message) : M unit := emit (EvPrint m).
Definition gets {A} (f : world → A) : M A := λ w, (Ok (f w), w, []).
Definition modify (f : world → world) : M unit := λ w, (Ok tt, f w, []).

(** A pure computation that may raise. *)
Definition lift {A} (r : result A) : M A := λ w, (r, w, []).

(** [try: body  except Exception as e: handler]; what the body did before it
    raised stays done. *)
Definition try_except {A} (body : M A) (handler : exn → M A) : M A := λ w,
  match body w with
  | (Raise e, w', evs) =>
      let '(r, w'', evs') := handler e w' in (r, w'', evs ++ evs')
  | other => other
  end.

(** [for x in xs: body] *)
Fixpoint for_each {A} (xs : list A) (body : A → M unit) : M unit :=
  match xs with
  | [] => ret tt
  | x :: xs' => body x ;; for_each xs' body
  end.

Definition set_fs (f : gmap string node) (w : world) : world :=
  World f (disk_free w) (cwd_writable w) (network w) (requests_sent w)
        (downloaded_hashes w).
Definition set_disk_free (n : nat) (w : world) : world :=
  World (fs w) n (cwd_writable w) (network w) (requests_sent w)
        (downloaded_hashes w).
Definition set_requests_sent (n : nat) (w : world) : world :=
  World (fs w) (disk_free w) (cwd_writable w) (network w) n
        (downloaded_hashes w).
Definition set_downloaded_hashes (h : gset string) (w : world) : world :=
  World (fs w) (disk_free w) (cwd_writable w) (network w) (requests_sent w) h.

(** *** File system calls *)

(** [os.path.exists(p)] *)
Definition path_exists (f : gmap string node) (p : string) : bool :=
  bool_decide (is_Some (f !! p)).

(** [os.path.isfile(p)] *)
Definition path_isfile (f : gmap string node) (p : string) : bool :=
  match f !! p with Some (File _ _) => true | _ => false end.

(** The name that [p] has inside directory [d], when [p] is an entry
    directly inside it. *)
Definition entry_name (d p : string) : option string :=
  let pre := d +:+ "/" in
  if String.prefix pre p then
    let name := Py.slice_from p (Py.len pre) in
    if Py.truthy name && negb (Py.has_char "/" name)
       && negb (String.eqb name ".") && negb (String.eqb name "..")
    then Some name else None
  else None.

(** [os.listdir(d)] *)
Definition listdir (f : gmap string node) (d : string) : list string :=
  omap (λ kv, entry_name d kv.1) (map_to_list f).

Definition os_listdir (d : string) : M (list string) := λ w,
  match fs w !! d with
  | Some (Dir true _) => (Ok (listdir (fs w) d), w, [EvListdir d])
  | _ => (Raise OSError, w, [EvListdir d])
  end.

(** [with open(p, 'rb') as f: f.read()] *)
Definition read_file (p : string) : M (list byte) := λ w,
  match fs w !! p with
  | Some (File content true) => (Ok content, w, [EvReadFile p (Some content)])
  | _ => (Raise OSError, w, [EvReadFile p None])
  end.

(** The directory a new entry [p] is created in; [None] is the working
    directory. *)
Definition parent (p : string) : option string :=
  let i := Py.rfind "/" p in
  if i <? 0 then None else Some (Py.slice_to p i).

Definition can_create (w : world) (p : string) : bool :=
  match parent p with
  | None => cwd_writable w
  | Some d => match fs w !! d with Some (Dir _ true) => true | _ => false end
  end.

(** The bytes of [content] go to [p] as far as the disk has room for them. *)
Definition store (p : string) (content : list byte) (readable : bool)
    (room : nat) (w : world) : result unit * world * list event :=
  if (length content <=? room)%nat
  then (Ok tt,
        set_disk_free (room - length content)
          (set_fs (<[p := File content readable]> (fs w)) w),
        [EvWriteFile p content true])
  else (Raise OSError,
        set_disk_free 0
          (set_fs (<[p := File (take room content) readable]> (fs w)) w),
        [EvWriteFile p content false]).

(** [with open(p, 'wb') as f: f.write(content)].  A path that names a
    directory, or a new path whose directory is missing or not writable, is
    refused; an existing file is truncated first. *)
Definition write_file (p : string) (content : list byte) : M unit := λ w,
  match fs w !! p with
  | Some (Dir _ _) => (Raise OSError, w, [EvWriteFile p content false])
  | Some (File old readable) =>
      store p content readable (disk_free w + length old) w
  | None =>
      if can_create w p
      then store p content true (disk_free w) w
      else (Raise OSError, w, [EvWriteFile p content false])
  end.

(** [os.makedirs(d, exist_ok=True)] for a directory name [d] of one
    component. *)
Definition os_makedirs (d : string) : M unit := λ w,
  match fs w !! d with
  | Some (Dir _ _) => (Ok tt, w, [EvMakedirs d])
  | Some (File _ _) => (Raise OSError, w, [EvMakedirs d])
  | None =>
      if can_create w d
      then (Ok tt, set_fs (<[d := Dir true true]> (fs w)) w, [EvMakedirs d])
      else (Raise OSError, w, [EvMakedirs d])
  end.

(** *** Network calls *)

(** [requests.get(url, headers=headers, timeout=15, stream=True)] *)
Definition requests_get (url : string) : M response := λ w,
  let w' := set_requests_sent (S (requests_sent w)) w in
  match network w (requests_sent w) url with
  | ConnectionFailed => (Raise RequestException, w', [EvRequest url])
  | Replied r => (Ok r, w', [EvRequest url])
  end.

(** [response.raise_for_status()] *)
Definition raise_for_status (r : response) : M unit :=
  if (400 <=? status_code r) && (status_code r <? 600)
  then raise RequestException else ret tt.

(** [response.headers.get(name)]: the keys compare without regard to case. *)
Fixpoint headers_get (h : list (string * string)) (name : string)
  : option string :=
  match h with
  | [] => None
  | (k, v) :: h' =>
      if String.eqb (Py.lower k) (Py.lower name) then Some v
      else headers_get h' name
  end.

(** [response.content] *)
Definition response_content (r : response) : M (list byte) :=
  emit (EvReadBody (body r)) ;;
  match body r with
  | Some b => ret b
  | None => raise RequestException
  end.

(** ** [class UbuntuImageFetcher] *)

(** [self.download_dir] *)
Definition download_dir : string := "Fetched_Images".

(** The body of the loop of [load_existing_hashes]: the [try] around the read
    swallows every error of one file ([except: continue]). *)
Definition scan_file (file : string) : M unit :=
  let filepath := OsPath.join download_dir file in
  isfile <- gets (λ w, path_isfile (fs w) filepath) ;;
  if isfile then
    try_except
      (content <- read_file filepath ;;
       let file_hash := MD5.hexdigest content in
       modify (λ w, set_downloaded_hashes
                      ({[file_hash]} ∪ downloaded_hashes w) w))
      (λ _, ret tt)
  else ret tt.

(** [load_existing_hashes] *)
Definition load_existing_hashes : M unit :=
  present <- gets (λ w, path_exists (fs w) download_dir) ;;
  if present then
    files <- os_listdir download_dir ;;
    for_each files scan_file
  else ret tt.

(** [__init__] *)
Definition init : M unit :=
  modify (set_downloaded_hashes ∅) ;;
  load_existing_hashes.

(** [get_file_hash] *)
Definition get_file_hash (content : list byte) : string :=
  MD5.hexdigest content.

(** [is_duplicate] *)
Definition is_duplicate (content : list byte) : M bool :=
  let content_hash := get_file_hash content in
  gets (λ w, bool_decide (content_hash ∈ downloaded_hashes w)).

Definition safe_types : list string :=
  ["image/jpeg"; "image/jpg"; "image/png"; "image/gif"; "image/webp"; "image/bmp"].

Definition safe_extensions : list string :=
  [".jpg"; ".jpeg"; ".png"; ".gif"; ".webp"; ".bmp"].

(** [urlparse(url).path], raising [ValueError] where the library does. *)
Definition urlparse_path (url : string) : result string :=
  match UrlParse.path url with
  | Some p => Ok p
  | None => Raise ValueError
  end.

(** [is_safe_file_type]; it reads nothing but the response. *)
Definition is_safe_file_type (r : response) : result bool :=
  let content_type :=
    Py.lower (default EmptyString (headers_get (headers r) "content-type")) in
  if Py.truthy content_type
     && negb (existsb (λ st, Py.contains st content_type) safe_types)
  then Ok false
  else
    let url := resp_url r in
    match urlparse_path url with
    | Ok path =>
        let file_extension := Py.lower (OsPath.splitext path).2 in
        if Py.truthy file_extension
           && negb (bool_decide (file_extension ∈ safe_extensions))
        then Ok false
        else Ok true
    | Raise e => Raise e
    | OutOfFuel => OutOfFuel
    end.

(** [get_filename_from_url] *)
Definition get_filename_from_url (url : string) (r : response) : result string :=
  match urlparse_path url with
  | Ok path =>
      let filename := OsPath.basename path in
      if negb (Py.truthy filename) || negb (Py.has_char "." filename) then
        let content_type :=
          default "image/jpeg" (headers_get (headers r) "content-type") in
        let extension :=
          if Py.contains "jpeg" content_type || Py.contains "jpg" content_type
          then ".jpg"
          else if Py.contains "png" content_type then ".png"
          else if Py.contains "gif" content_type then ".gif"
          else if Py.contains "webp" content_type then ".webp"
          else ".jpg" in
        Ok ("downloaded_image" +:+ extension)
      else Ok filename
  | Raise e => Raise e
  | OutOfFuel => OutOfFuel
  end.

(** The size limit of [download_single_image]: [10 * 1024 * 1024]. *)
Definition max_size : Z := 10 * 1024 * 1024.

(** [content_length and int(content_length) > 10 * 1024 * 1024] *)
Definition too_large (content_length : option string) : result bool :=
  match content_length with
  | Some s =>
      if Py.truthy s then
        match Py.int s with
        | Some n => Ok (max_size <? n)
        | None => Raise ValueError
        end
      else Ok false
  | None => Ok false
  end.

(** The name tried at [counter]: [f"{base_name}_{counter}{extension}"]. *)
Definition numbered (base_name extension : string) (counter : nat) : string :=
  base_name +:+ "_" +:+ pretty counter +:+ extension.

(** [while os.path.exists(filepath): ...]; the loop of the source has no
    bound, [fuel] counts the tests of the condition that are left. *)
Fixpoint unique_loop (fuel : nat) (f : gmap string node)
    (base_name extension : string) (counter : nat) (filename filepath : string)
  : option (string * string) :=
  match fuel with
  | O => None
  | S fuel' =>
      if path_exists f filepath then
        let filename := numbered base_name extension counter in
        let filepath := OsPath.join download_dir filename in
        unique_loop fuel' f base_name extension (S counter) filename filepath
      else Some (filename, filepath)
  end.

(** The "ensure unique filename" block: the file system has [size f] paths,
    so [size f + 2] tests are enough (shown below). *)
Definition unique_filename (filename : string) : M (string * string) := λ w,
  let filepath := OsPath.join download_dir filename in
  let counter := 1%nat in
  let '(base_name, extension) := OsPath.splitext filename in
  match unique_loop (size (fs w) + 2) (fs w) base_name extension counter
          filename filepath with
  | Some r => (Ok r, w, [])
  | None => (OutOfFuel, w, [])
  end.

(** [download_single_image] *)
Definition download_single_image (url : string) : M bool :=
  try_except
    (print (MsgConnecting url) ;;
     response <- requests_get url ;;
     raise_for_status response ;;
     let content_length := headers_get (headers response) "content-length" in
     big <- lift (too_large content_length) ;;
     if big then
       print MsgTooLarge ;;
       ret false
     else
       safe <- lift (is_safe_file_type response) ;;
       if negb safe then
         print MsgUnsafeType ;;
         ret false
       else
         content <- response_content response ;;
         dup <- is_duplicate content ;;
         if dup then
           print MsgDuplicate ;;
           ret true
         else
           filename <- lift (get_filename_from_url url response) ;;
           unique <- unique_filename filename ;;
           let '(filename, filepath) := unique in
           write_file filepath content ;;
           modify (λ w, set_downloaded_hashes
                          ({[get_file_hash content]} ∪ downloaded_hashes w) w) ;;
           print (MsgFetched filename) ;;
           print (MsgSaved filepath) ;;
           ret true)
    (λ e, match e with
          | RequestException => print MsgConnectionError ;; ret false
          | _ => print MsgErrorOccurred ;; ret false
          end).

(** The loop body of [download_multiple_images], with the running count. *)
Fixpoint download_loop (n : nat) (i : nat) (urls : list string)
    (successful_downloads : nat) : M nat :=
  match urls with
  | [] => ret successful_downloads
  | url :: urls' =>
      print (MsgProcessing i n) ;;
      let url := Py.strip url in
      if Py.truthy url then
        ok <- download_single_image url ;;
        download_loop n (S i) urls'
          (if ok then S successful_downloads else successful_downloads)
      else download_loop n (S i) urls' successful_downloads
  end.

(** [download_multiple_images] *)
Definition download_multiple_images (urls : list string) : M nat :=
  download_loop (length urls) 1 urls 0.

(** The start of [main]: the fetcher is constructed, then the directory is
    created if it is not there. *)
Definition main_startup : M unit :=
  init ;;
  os_makedirs download_dir.

(** The text menu of [main] after the start: choice 1 strips the URL typed
    and fetches it unless it is empty; choice 2 hands the list of URLs typed,
    unless it is empty, to [download_multiple_images]. *)
Inductive command :=
| Single (url : string)
| Multiple (urls : list string).

Definition run_command (c : command) : M unit :=
  match c with
  | Single url =>
      let url := Py.strip url in
      if Py.truthy url then download_single_image url ;; ret tt else ret tt
  | Multiple urls =>
      match urls with
      | [] => ret tt
      | _ => download_multiple_images urls ;; ret tt
      end
  end.

(** One run of the program: the start, then the commands typed. *)
Definition session (cmds : list command) : M unit :=
  main_startup ;;
  for_each cmds run_command.

(** ** Reading a run

    The source reports what happened to a URL by the line it prints and a
    boolean.  The tagged result of a fetch is read off the line printed. *)
Inductive rejection := TooLarge | UnsafeType.
Inductive failure := NetworkError | OtherError.
Inductive FetchResult :=
| accepted (path : string)
| duplicate
| rejected (why : rejection)
| failed (why : failure).

Definition outcome_of_event (e : event) : option FetchResult :=
  match e with
  | EvPrint MsgTooLarge => Some (rejected TooLarge)
  | EvPrint MsgUnsafeType => Some (rejected UnsafeType)
  | EvPrint MsgDuplicate => Some duplicate
  | EvPrint (MsgSaved p) => Some (accepted p)
  | EvPrint MsgConnectionError => Some (failed NetworkError)
  | EvPrint MsgErrorOccurred => Some (failed OtherError)
  | _ => None
  end.

(** The results of the fetches of a run, in order. *)
Definition outcomes (evs : list event) : list FetchResult :=
  omap outcome_of_event evs.

(** The result of the one fetch of a run of [download_single_image]. *)
Definition fetch_result (evs : list event) : option FetchResult :=
  head (outcomes evs).

Definition is_success (o : FetchResult) : bool :=
  match o with
  | accepted _ | duplicate => true
  | rejected _ | failed _ => false
  end.

(** The URLs requested in a run, in order. *)
Definition requested (evs : list event) : list string :=
  omap (λ e, match e with EvRequest u => Some u | _ => None end) evs.

(** The contents a run has read from a file of the collection or stored in
    full, with their paths. *)
Definition persisted (evs : list event) : list (string * list byte) :=
  omap (λ e, match e with
             | EvReadFile p (Some c) => Some (p, c)
             | EvWriteFile p c true => Some (p, c)
             | _ => None
             end) evs.

Definition hashes_of (l : list (string * list byte)) : gset string :=
  list_to_set ((λ pc, get_file_hash pc.2) <$> l).

Global Instance byte_eq_dec : EqDecision byte := Byte.byte_eq_dec.

(** The number of files of [f] whose bytes are [c]. *)
Definition has_content (c : list byte) (n : node) : bool :=
  match n with
  | File c' _ => bool_decide (c' = c)
  | Dir _ _ => false
  end.
Definition files_with (c : list byte) (f : gmap string node) : nat :=
  size (filter (λ kv, has_content c kv.2 = true) f).

(** The world after a request went out. *)
Definition sent (w : world) : world :=
  set_requests_sent (S (requests_sent w)) w.

(** What the "ensure unique filename" block hands over for [filename] on the
    file system [f]. *)
Definition reserved (f : gmap string node) (filename name path : string) : Prop :=
  path = OsPath.join download_dir name
  ∧ path_exists f path = false
  ∧ if path_exists f (OsPath.join download_dir filename) then
      ∃ N : nat,
        (1 ≤ N)%nat
        ∧ name = numbered (OsPath.splitext filename).1 (OsPath.splitext filename).2 N
        ∧ ∀ k : nat, (1 ≤ k < N)%nat →
            path_exists f
              (OsPath.join download_dir
                 (numbered (OsPath.splitext filename).1 (OsPath.splitext filename).2 k))
            = true
    else name = filename.

(** The start of every run of [download_single_image]. *)
Definition preamble (url : string) : list event :=
  [EvPrint (MsgConnecting url); EvRequest url].

Definition bad_status (r : response) : bool :=
  (400 <=? status_code r) && (status_code r <? 600).

(** The runs of [download_single_image url] in the world [w], one
    constructor for each way through the method.  [download_single_image_run]
    below shows that the method always takes one of them. *)
Inductive run_of (url : string) (w : world)
  : result bool * world * list event → Prop :=
| run_no_reply :
    network w (requests_sent w) url = ConnectionFailed →
    run_of url w (Ok false, sent w, preamble url ++ [EvPrint MsgConnectionError])
| run_bad_status r :
    network w (requests_sent w) url = Replied r →
    bad_status r = true →
    run_of url w (Ok false, sent w, preamble url ++ [EvPrint MsgConnectionError])
| run_bad_length r :
    network w (requests_sent w) url = Replied r →
    bad_status r = false →
    too_large (headers_get (headers r) "content-length") = Raise ValueError →
    run_of url w (Ok false, sent w, preamble url ++ [EvPrint MsgErrorOccurred])
| run_too_large r :
    network w (requests_sent w) url = Replied r →
    bad_status r = false →
    too_large (headers_get (headers r) "content-length") = Ok true →
    run_of url w (Ok false, sent w, preamble url ++ [EvPrint MsgTooLarge])
| run_type_error r :
    network w (requests_sent w) url = Replied r →
    bad_status r = false →
    too_large (headers_get (headers r) "content-length") = Ok false →
    is_safe_file_type r = Raise ValueError →
    run_of url w (Ok false, sent w, preamble url ++ [EvPrint MsgErrorOccurred])
| run_unsafe r :
    network w (requests_sent w) url = Replied r →
    bad_status r = false →
    too_large (headers_get (headers r) "content-length") = Ok false →
    is_safe_file_type r = Ok false →
    run_of url w (Ok false, sent w, preamble url ++ [EvPrint MsgUnsafeType])
| run_body_failed r :
    network w (requests_sent w) url = Replied r →
    bad_status r = false →
    too_large (headers_get (headers r) "content-length") = Ok false →
    is_safe_file_type r = Ok true →
    body r = None →
    run_of url w
      (Ok false, sent w,
       preamble url ++ [EvReadBody None; EvPrint MsgConnectionError])
| run_duplicate r c :
    network w (requests_sent w) url = Replied r →
    bad_status r = false →
    too_large (headers_get (headers r) "content-length") = Ok false →
    is_safe_file_type r = Ok true →
    body r = Some c →
    get_file_hash c ∈ downloaded_hashes w →
    run_of url w
      (Ok true, sent w,
       preamble url ++ [EvReadBody (Some c); EvPrint MsgDuplicate])
| run_name_error r c :
    network w (requests_sent w) url = Replied r →
    bad_status r = false →
    too_large (headers_get (headers r) "content-length") = Ok false →
    is_safe_file_type r = Ok true →
    body r = Some c →
    get_file_hash c ∉ downloaded_hashes w →
    get_filename_from_url url r = Raise ValueError →
    run_of url w
      (Ok false, sent w,
       preamble url ++ [EvReadBody (Some c); EvPrint MsgErrorOccurred])
| run_write_refused r c filename name path :
    network w (requests_sent w) url = Replied r →
    bad_status r = false →
    too_large (headers_get (headers r) "content-length") = Ok false →
    is_safe_file_type r = Ok true →
    body r = Some c →
    get_file_hash c ∉ downloaded_hashes w →
    get_filename_from_url url r = Ok filename →
    reserved (fs w) filename name path →
    can_create w path = false →
    run_of url w
      (Ok false, sent w,
       preamble url
       ++ [EvReadBody (Some c); EvWriteFile path c false; EvPrint MsgErrorOccurred])
| run_disk_full r c filename name path :
    network w (requests_sent w) url = Replied r →
    bad_status r = false →
    too_large (headers_get (headers r) "content-length") = Ok false →
    is_safe_file_type r = Ok true →
    body r = Some c →
    get_file_hash c ∉ downloaded_hashes w →
    get_filename_from_url url r = Ok filename →
    reserved (fs w) filename name path →
    can_create w path = true →
    (disk_free w < length c)%nat →
    run_of url w
      (Ok false,
       set_disk_free 0
         (set_fs (<[path := File (take (disk_free w) c) true]> (fs w)) (sent w)),
       preamble url
       ++ [EvReadBody (Some c); EvWriteFile path c false; EvPrint MsgErrorOccurred])
| run_accepted r c filename name path :
    network w (requests_sent w) url = Replied r →
    bad_status r = false →
    too_large (headers_get (headers r) "content-length") = Ok false →
    is_safe_file_type r = Ok true →
    body r = Some c →
    get_file_hash c ∉ downloaded_hashes w →
    get_filename_from_url url r = Ok filename →
    reserved (fs w) filename name path →
    can_create w path = true →
    (length c ≤ disk_free w)%nat →
    run_of url w
      (Ok true,
       set_downloaded_hashes ({[get_file_hash c]} ∪ downloaded_hashes w)
         (set_disk_free (disk_free w - length c)
            (set_fs (<[path := File c true]> (fs w)) (sent w))),
       preamble url
       ++ [EvReadBody (Some c); EvWriteFile path c true;
           EvPrint (MsgFetched name); EvPrint (MsgSaved path)]).

(** The files the scan at the start indexes: among the entries [files] of the
    collection directory, the regular files that can be read. *)
Definition scanned_in (f : gmap string node) (files : list string)
  : list (string * list byte) :=
  omap (λ name,
          match f !! OsPath.join download_dir name with
          | Some (File c true) => Some (OsPath.join download_dir name, c)
          | _ => None
          end) files.

(** Nothing is scanned when the collection directory is not there. *)
Definition scanned (f : gmap string node) : list (string * list byte) :=
  if path_exists f download_dir
  then scanned_in f (listdir f download_dir)
  else [].

(** The events of the scan of one file. *)
Definition is_file_read (e : event) : Prop :=
  match e with EvReadFile _ _ => True | _ => False end.


(** The step from [w] to [w'] with the events [evs] keeps every entry of the
    file system, adds to the hash set exactly the hashes of what [evs]
    persisted, and leaves each persisted content at its path. *)
Definition grows (w w' : world) (evs : list event) : Prop :=
  fs w ⊆ fs w'
  ∧ downloaded_hashes w' = downloaded_hashes w ∪ hashes_of (persisted evs)
  ∧ ∀ p c, (p, c) ∈ persisted evs → ∃ rd, fs w' !! p = Some (File c rd).

Definition is_accepted (o : FetchResult) : bool :=
  match o with accepted _ => true | _ => false end.
Definition is_duplicate_result (o : FetchResult) : bool :=
  match o with duplicate => true | _ => false end.

(** The number of results of [l] that satisfy [f]. *)
Definition count (f : FetchResult → bool) (l : list FetchResult) : nat :=
  length (filter (λ o, f o = true) l).

(** ** Sample data

    Bytes, replies and worlds that the statements below are run on. *)
Definition bytes_of (s : string) : list byte := String.list_byte_of_string s.

(** A reply 200 for [url] with the given headers and body. *)
Definition reply_with (h : list (string * string)) (url body : string) : reply :=
  Replied (Response 200 h url (Some (bytes_of body))).

(** An empty, writable collection directory, room for 1000 bytes. *)
Definition empty_collection (net : nat → string → reply) : world :=
  World {[ download_dir := Dir true true ]} 1000 true net 0 ∅.


(** A server that sends [Content-Length:] with nothing after the colon. *)
Definition empty_length_net : nat → string → reply := λ _ url,
  reply_with [("Content-Type", "image/png"); ("Content-Length", EmptyString)] url "hello".

(** A server that sends a length that is no number. *)
Definition garbled_length_net : nat → string → reply := λ _ url,
  reply_with [("Content-Type", "image/png"); ("Content-Length", "12abc")]
    url "hello".

(** A server that sends the same five bytes for every URL, with no declared
    length. *)
Definition hello_net : nat → string → reply := λ _ url,
  reply_with [("Content-Type", "image/png")] url "hello".

(** A collection that holds the five bytes already, in a file that cannot be
    read. *)
Definition unreadable_collection : world :=
  World {[ download_dir := Dir true true;
           "Fetched_Images/old.png" := File (bytes_of "hello") false ]}
        1000 true hello_net 0 ∅.

(** A collection that holds the five bytes in a file that can be read. *)
Definition readable_collection : world :=
  World {[ download_dir := Dir true true;
           "Fetched_Images/old.png" := File (bytes_of "hello") true ]}
        1000 true hello_net 0 ∅.

(** The first fetch from [hello_net] into the empty collection. *)
Definition hello_run : result bool * world * list event :=
  Eval vm_compute in
    download_single_image "http://x/a.png" (empty_collection hello_net).

(** A server whose [n]-th reply carries the decimal digits of [n]. *)
Definition counting_net : nat → string → reply := λ n url,
  reply_with [("Content-Type", "image/png")] url (pretty n).

(** A collection with one readable file, served by [counting_net]. *)
Definition counting_collection : world :=
  World {[ download_dir := Dir true true;
           "Fetched_Images/old.png" := File (bytes_of "hello") true ]}
        1000 true counting_net 0 ∅.

Definition sample_commands : list command :=
  [Single "http://x/a.png"; Multiple [" http://x/a.png "; "   "; "http://x/a.exe"]].

Definition sample_session : result unit * world * list event :=
  Eval vm_compute in session sample_commands counting_collection.

(** The same fetch once more, in the world the first one left. *)
Definition hello_rerun : result bool * world * list event :=
  Eval vm_compute in download_single_image "http://x/a.png" hello_run.1.2.

(** ** Further definitions

    Text cut by position, for reasoning about slices. *)

(** [s[n:]] by recursion on [n]. *)
Fixpoint str_drop (n : nat) (s : string) : string :=
  match n, s with
  | O, _ => s
  | S n', String _ s' => str_drop n' s'
  | S _, EmptyString => EmptyString
  end.


(** [0-9a-f] *)
Definition is_lower_hex (c : ascii) : bool :=
  let n := Py.ord c in
  ((48 <=? n) && (n <=? 57)) || ((97 <=? n) && (n <=? 102)).

(** ** Further sample data *)






(** ** The batch as single fetches *)

(** [download_single_image] called for one URL after the other, counting the
    [True]s. *)
Fixpoint fetch_each (urls : list string) : M nat :=
  match urls with
  | [] => ret 0%nat
  | url :: urls' =>
      ok <- download_single_image url ;;
      n <- fetch_each urls' ;;
      ret ((if ok then 1 else 0) + n)%nat
  end.

(** The progress line of [download_multiple_images]. *)
Definition is_progress (e : event) : bool :=
  match e with
  | EvPrint (MsgProcessing _ _) => true
  | _ => false
  end.

(** ** [main]

    The program talks to a console: it prints lines and reads the lines
    typed.  [stdin] holds the lines that are still to be read; [input()]
    raises [EOFError] when none is left, and nothing in [main] catches it.
    Printing is taken to succeed. *)

(** The lines of [main], one for each [print]. *)
Inductive line :=
| LineRule
| LineWelcome
| LineTagline
| LineHowProceed
| LineOption1
| LineOption2
| LineOption3
| LineStrengthened
| LineNoUrl
| LineEnterUrls
| LineDownloaded (successful total : nat)
| LineMultiplied
| LineNoUrls
| LineThanks
| LineGoForth
| LineInvalidChoice.

(** The prompts of the three [input] calls. *)
Inductive prompt := PromptChoice | PromptUrl | PromptNone.

Inductive main_event :=
| Said (l : line)
| Asked (p : prompt) (typed : option string)
| Did (e : event).

(** How a part of [main] ends. *)
Inductive ending (A : Type) :=
| Returned (a : A)
| Uncaught (e : exn)
| EOFError
| Unfinished.
Arguments Returned {A} a.
Arguments Uncaught {A} e.
Arguments EOFError {A}.
Arguments Unfinished {A}.

Record console := Console { the_world : world; stdin : list string }.

Definition Main (A : Type) : Type :=
  console → ending A * console * list main_event.

Definition main_ret {A} (a : A) : Main A := λ s, (Returned a, s, []).

Definition main_bind {A B} (m : Main A) (k : A → Main B) : Main B := λ s,
  match m s with
  | (Returned a, s', evs) =>
      let '(r, s'', evs') := k a s' in (r, s'', evs ++ evs')
  | (Uncaught e, s', evs) => (Uncaught e, s', evs)
  | (EOFError, s', evs) => (EOFError, s', evs)
  | (Unfinished, s', evs) => (Unfinished, s', evs)
  end.

Declare Scope main_scope.
Delimit Scope main_scope with main.
Notation "x <- m ;; k" := (main_bind m (λ x, k))
  (at level 100, m at next level, right associativity) : main_scope.
Notation "m ;; k" := (main_bind m (λ _, k))
  (at level 100, right associativity) : main_scope.

(** [print(...)] *)
Definition say (l : line) : Main unit := λ s, (Returned tt, s, [Said l]).

(** [input(prompt)] *)
Definition input (p : prompt) : Main string := λ s,
  match stdin s with
  | [] => (EOFError, s, [Asked p None])
  | typed :: rest =>
      (Returned typed, Console (the_world s) rest, [Asked p (Some typed)])
  end.

(** A call into the fetcher; what it raises is not caught. *)
Definition call {A} (m : M A) : Main A := λ s,
  let '(r, w', evs) := m (the_world s) in
  (match r with
   | Ok a => Returned a
   | Raise e => Uncaught e
   | OutOfFuel => Unfinished
   end,
   Console w' (stdin s), Did <$> evs).

Definition out_of_fuel {A} : Main A := λ s, (Unfinished, s, []).

(** The [while True] that reads the URLs of choice 2; [fuel] counts the
    rounds that are left. *)
Fixpoint read_urls (fuel : nat) (urls : list string) : Main (list string) :=
  match fuel with
  | O => out_of_fuel
  | S fuel' =>
      (url <- input PromptNone ;;
       let url := Py.strip url in
       if negb (Py.truthy url) then main_ret urls
       else read_urls fuel' (urls ++ [url]))%main
  end.

(** One round of the menu; the answer is [false] at [break]. *)
Definition menu_round : Main bool :=
  (say LineHowProceed ;;
   say LineOption1 ;;
   say LineOption2 ;;
   say LineOption3 ;;
   choice <- input PromptChoice ;;
   let choice := Py.strip choice in
   if String.eqb choice "1" then
     url <- input PromptUrl ;;
     let url := Py.strip url in
     if Py.truthy url then
       call (download_single_image url) ;;
       say LineStrengthened ;;
       main_ret true
     else
       say LineNoUrl ;;
       main_ret true
   else if String.eqb choice "2" then
     say LineEnterUrls ;;
     urls <- (λ s, read_urls (S (length (stdin s))) [] s) ;;
     match urls with
     | _ :: _ =>
         successful <- call (download_multiple_images urls) ;;
         say (LineDownloaded successful (length urls)) ;;
         say LineMultiplied ;;
         main_ret true
     | [] =>
         say LineNoUrls ;;
         main_ret true
     end
   else if String.eqb choice "3" then
     say LineThanks ;;
     say LineGoForth ;;
     main_ret false
   else
     say LineInvalidChoice ;;
     main_ret true)%main.

(** The outer [while True]. *)
Fixpoint menu_loop (fuel : nat) : Main unit :=
  match fuel with
  | O => out_of_fuel
  | S fuel' =>
      (go_on <- menu_round ;;
       if go_on then menu_loop fuel' else main_ret tt)%main
  end.

(** [main].  Every round of either loop reads a line first, so one round
    more than there are lines is enough (shown below). *)
Definition main : Main unit :=
  (say LineRule ;;
   say LineWelcome ;;
   say LineTagline ;;
   say LineRule ;;
   call init ;;
   call (os_makedirs download_dir) ;;
   (λ s, menu_loop (S (length (stdin s))) s))%main.

(** *** Reading a run of [main] *)

(** What the fetcher did during a run of [main]. *)
Definition fetcher_events (evs : list main_event) : list event :=
  omap (λ e, match e with Did e' => Some e' | _ => None end) evs.

(** The lines read during a run of [main]. *)
Definition lines_read (evs : list main_event) : list string :=
  omap (λ e, match e with Asked _ (Some typed) => Some typed | _ => None end) evs.

(** Where the program is waiting for a line. *)
Inductive waiting :=
| AtMenu
| AtUrl
| InList (urls : list string).

(** The commands that the lines typed amount to. *)
Fixpoint commands_typed (place : waiting) (lines : list string) : list command :=
  match lines with
  | [] => []
  | typed :: rest =>
      match place with
      | AtMenu =>
          if String.eqb (Py.strip typed) "1" then commands_typed AtUrl rest
          else if String.eqb (Py.strip typed) "2" then commands_typed (InList []) rest
          else if String.eqb (Py.strip typed) "3" then []
          else commands_typed AtMenu rest
      | AtUrl => Single typed :: commands_typed AtMenu rest
      | InList urls =>
          if Py.truthy (Py.strip typed)
          then commands_typed (InList (urls ++ [Py.strip typed])) rest
          else Multiple urls :: commands_typed AtMenu rest
      end
  end.

(** Whether the lines typed reach choice 3. *)
Fixpoint exit_typed (place : waiting) (lines : list string) : bool :=
  match lines with
  | [] => false
  | typed :: rest =>
      match place with
      | AtMenu =>
          if String.eqb (Py.strip typed) "1" then exit_typed AtUrl rest
          else if String.eqb (Py.strip typed) "2" then exit_typed (InList []) rest
          else if String.eqb (Py.strip typed) "3" then true
          else exit_typed AtMenu rest
      | AtUrl => exit_typed AtMenu rest
      | InList urls =>
          if Py.truthy (Py.strip typed)
          then exit_typed (InList (urls ++ [Py.strip typed])) rest
          else exit_typed AtMenu rest
      end
  end.

(** A run of [main] on a collection with one file: an invalid choice, one
    URL, a list of three lines, and the exit. *)
Definition sample_stdin : list string :=
  ["9"; " 1 "; "http://x/a.png"; "2"; " http://x/a.png "; "http://x/a.exe";
   "   "; "3"; "left over"].

Definition sample_main : ending unit * console * list main_event :=
  Eval vm_compute in main (Console counting_collection sample_stdin).

(** The summary line of choice 2 counts successes among the URLs typed. *)
Definition summary_ok (e : main_event) : Prop :=
  match e with
  | Said (LineDownloaded successful total) =>
      (successful ≤ total)%nat ∧ (1 ≤ total)%nat
  | _ => True
  end.

(** The four lines of the menu. *)
Definition menu_lines : list main_event :=
  [Said LineHowProceed; Said LineOption1; Said LineOption2; Said LineOption3].

(** The four lines at the start. *)
Definition banner_lines : list main_event :=
  [Said LineRule; Said LineWelcome; Said LineTagline; Said LineRule].





(** The hashes of the contents that a run stored in full, in order. *)
Definition stored_hashes (evs : list event) : list string :=
  omap (λ e, match e with
             | EvWriteFile _ c true => Some (get_file_hash c)
             | _ => None
             end) evs.

(** From [w] to [w'] with the events [evs]: the contents stored in full have
    hashes that differ from one another, that were not in the set before and
    are in it after, and the set has lost nothing. *)
Definition stores_new (w w' : world) (evs : list event) : Prop :=
  NoDup (stored_hashes evs)
  ∧ downloaded_hashes w ⊆ downloaded_hashes w'
  ∧ ∀ h, h ∈ stored_hashes evs →
         (h ∉ downloaded_hashes w) ∧ h ∈ downloaded_hashes w'.

(** One request is counted for each URL requested. *)
Definition counts_requests (w w' : world) (evs : list event) : Prop :=
  requests_sent w' = (requests_sent w + length (requested evs))%nat.

(** The URLs that a command has fetched. *)
Definition urls_of_command (c : command) : list string :=
  match c with
  | Single url => filter (λ u, Py.truthy u = true) [Py.strip url]
  | Multiple urls => filter (λ u, Py.truthy u = true) (Py.strip <$> urls)
  end.

Definition urls_of (cmds : list command) : list string :=
  cmds ≫= urls_of_command.
(** * Properties *)

(** ** Strings and paths *)

Lemma string_app_cons (a : ascii) (s1 s2 : string) :
  String a s1 +:+ s2 = String a (s1 +:+ s2).
Proof. reflexivity. Qed.

Lemma string_length_app (s1 s2 : string) :
  String.length (s1 +:+ s2) = (String.length s1 + String.length s2)%nat.
Proof.
  induction s1 as [|a s1 IH]; [done|].
  rewrite string_app_cons. simpl. by rewrite IH.
Qed.

Lemma string_app_inj_r (s1 s2 e : string) : s1 +:+ e = s2 +:+ e → s1 = s2.
Proof.
  revert s2. induction s1 as [|a s1 IH]; intros [|b s2] Heq.
  - done.
  - apply (f_equal String.length) in Heq.
    rewrite !string_length_app in Heq. simpl in Heq. lia.
  - apply (f_equal String.length) in Heq.
    rewrite !string_length_app in Heq. simpl in Heq. lia.
  - rewrite !string_app_cons in Heq. injection Heq as -> Heq.
    f_equal. by apply IH.
Qed.

Lemma prefix_empty (s : string) : String.prefix EmptyString s = true.
Proof. by destruct s. Qed.

Lemma numbered_inj (base_name extension : string) (j k : nat) :
  numbered base_name extension j = numbered base_name extension k → j = k.
Proof.
  unfold numbered. intros Heq.
  apply (inj (String.app base_name)) in Heq.
  apply (inj (String.app "_")) in Heq.
  apply string_app_inj_r in Heq.
  by apply (inj pretty) in Heq.
Qed.

Lemma join_download_dir (b : string) :
  OsPath.join download_dir b
  = if String.prefix "/" b then b else download_dir +:+ "/" +:+ b.
Proof. unfold OsPath.join. by destruct (String.prefix "/" b). Qed.

Lemma prefix_slash_numbered (base_name extension : string) (j k : nat) :
  String.prefix "/" (numbered base_name extension j)
  = String.prefix "/" (numbered base_name extension k).
Proof.
  unfold numbered. destruct base_name as [|a b]; [reflexivity|].
  rewrite !string_app_cons. cbn [String.prefix].
  destruct (ascii_dec "/" a); [|done]. by rewrite !prefix_empty.
Qed.

Lemma join_numbered_inj (base_name extension : string) (j k : nat) :
  OsPath.join download_dir (numbered base_name extension j)
  = OsPath.join download_dir (numbered base_name extension k) →
  j = k.
Proof.
  rewrite !join_download_dir, (prefix_slash_numbered _ _ j k).
  destruct (String.prefix _ _); intros Heq.
  - by apply numbered_inj in Heq.
  - apply (inj (String.app download_dir)), (inj (String.app "/")) in Heq.
    by apply numbered_inj in Heq.
Qed.

Lemma path_exists_false (f : gmap string node) (p : string) :
  path_exists f p = false ↔ f !! p = None.
Proof.
  unfold path_exists. rewrite bool_decide_eq_false, <-eq_None_not_Some. done.
Qed.

Lemma path_exists_true (f : gmap string node) (p : string) :
  path_exists f p = true ↔ p ∈ dom f.
Proof. unfold path_exists. by rewrite bool_decide_eq_true, elem_of_dom. Qed.

(** ** The loop that looks for an unused name *)

Section unique_loop.
Variable f : gmap string node.
Variables base_name extension : string.

Local Abbreviation candidate k :=
  (OsPath.join download_dir (numbered base_name extension k)).

(** Once the loop tests numbered names, it stops at the first unused one;
    [X] holds the numbered names from [counter] on that are in use, and
    there is more fuel than that. *)
Lemma unique_loop_numbered (fuel counter : nat) (X : gset string) :
  (∀ k, (counter ≤ k)%nat → path_exists f (candidate k) = true → candidate k ∈ X) →
  (size X < fuel)%nat →
  ∃ N, (counter ≤ N)%nat
    ∧ unique_loop fuel f base_name extension (S counter)
        (numbered base_name extension counter) (candidate counter)
      = Some (numbered base_name extension N, candidate N)
    ∧ path_exists f (candidate N) = false
    ∧ ∀ k, (counter ≤ k < N)%nat → path_exists f (candidate k) = true.
Proof.
  revert counter X. induction fuel as [|fuel IH]; intros counter X HX Hsize; [lia|].
  simpl. destruct (path_exists f (candidate counter)) eqn:Hex.
  - destruct (IH (S counter) (X ∖ {[candidate counter]})) as (N & HN & Hrun & Hfree & Hused).
    + intros k Hk Hexk. apply elem_of_difference. split; [apply HX; [lia|done]|].
      rewrite elem_of_singleton. intros Heq%join_numbered_inj. lia.
    + assert (candidate counter ∈ X) as Hin by (apply HX; [lia|done]).
      pose proof (size_difference X {[candidate counter]}) as Hd.
      rewrite size_singleton in Hd.
      assert (size X ≠ 0)%nat.
      { intros H0%size_empty_inv. set_solver. }
      rewrite Hd by set_solver. lia.
    + exists N. split_and!; [lia|done|done|].
      intros k Hk. destruct (decide (k = counter)) as [->|]; [done|].
      apply Hused. lia.
  - exists counter. split_and!; [lia|done|done|]. intros k Hk. lia.
Qed.
End unique_loop.

Lemma unique_loop_S (fuel : nat) (f : gmap string node)
    (base_name extension : string) (counter : nat) (filename filepath : string) :
  unique_loop (S fuel) f base_name extension counter filename filepath
  = if path_exists f filepath then
      unique_loop fuel f base_name extension (S counter)
        (numbered base_name extension counter)
        (OsPath.join download_dir (numbered base_name extension counter))
    else Some (filename, filepath).
Proof. reflexivity. Qed.

Lemma unique_filename_reserved (filename : string) (w : world) :
  ∃ name path,
    unique_filename filename w = (Ok (name, path), w, [])
    ∧ reserved (fs w) filename name path.
Proof.
  unfold unique_filename, reserved.
  destruct (OsPath.splitext filename) as [base_name extension] eqn:Hsplit.
  replace (size (fs w) + 2)%nat with (S (S (size (fs w)))) by lia.
  rewrite unique_loop_S. cbn [fst snd].
  destruct (path_exists (fs w) (OsPath.join download_dir filename)) eqn:Hex.
  - destruct (unique_loop_numbered (fs w) base_name extension
                (S (size (fs w))) 1 (dom (fs w)))
      as (N & HN & Hrun & Hfree & Hused).
    + intros k _ Hk. by apply path_exists_true.
    + rewrite size_dom. lia.
    + rewrite Hrun. eauto 10.
  - eauto 10.
Qed.

(** ** The ways through [download_single_image] *)

Lemma too_large_cases (content_length : option string) :
  too_large content_length = Raise ValueError
  ∨ ∃ b, too_large content_length = Ok b.
Proof.
  unfold too_large. repeat case_match; eauto.
Qed.

Lemma is_safe_file_type_cases (r : response) :
  is_safe_file_type r = Raise ValueError
  ∨ ∃ b, is_safe_file_type r = Ok b.
Proof.
  unfold is_safe_file_type, urlparse_path. repeat case_match; simplify_eq; eauto.
Qed.

Lemma get_filename_from_url_cases (url : string) (r : response) :
  get_filename_from_url url r = Raise ValueError
  ∨ ∃ filename, get_filename_from_url url r = Ok filename.
Proof.
  unfold get_filename_from_url, urlparse_path.
  destruct (UrlParse.path url); [right|left; done].
  destruct (_ || _); eauto.
Qed.

Lemma run_of_eq (url : string) (w : world) (x y : result bool * world * list event) :
  run_of url w x → x = y → run_of url w y.
Proof. by intros ? <-. Qed.

(** The method always takes one of the ways listed in [run_of]; in
    particular it returns, and never lets an exception escape. *)
Lemma download_single_image_run (url : string) (w : world) :
  run_of url w (download_single_image url w).
Proof.
  unfold download_single_image, try_except, bind, print, emit, requests_get,
    raise_for_status, lift.
  destruct (network w (requests_sent w) url) as [|r] eqn:Hnet.
  { by apply run_no_reply. }
  fold (bad_status r). destruct (bad_status r) eqn:Hstatus.
  { by eapply run_bad_status. }
  cbn [ret raise].
  destruct (too_large_cases (headers_get (headers r) "content-length"))
    as [Hlen|[[] Hlen]]; rewrite Hlen.
  { by eapply run_bad_length. }
  { by eapply run_too_large. }
  destruct (is_safe_file_type_cases r) as [Hsafe|[[] Hsafe]]; rewrite Hsafe;
    cbn [negb].
  { by eapply run_type_error. }
  2:{ by eapply run_unsafe. }
  unfold response_content, is_duplicate, gets, bind, emit.
  destruct (body r) as [c|] eqn:Hbody; cbn [ret raise].
  2:{ by eapply run_body_failed. }
  cbn [downloaded_hashes set_requests_sent].
  destruct (bool_decide (get_file_hash c ∈ downloaded_hashes w)) eqn:Hdup.
  { apply bool_decide_eq_true in Hdup. by eapply run_duplicate. }
  apply bool_decide_eq_false in Hdup.
  destruct (get_filename_from_url_cases url r) as [Hname|[filename Hname]];
    rewrite Hname.
  { by eapply run_name_error. }
  destruct (unique_filename_reserved filename (sent w))
    as (name & path & Hunique & Hres).
  unfold sent in Hunique. rewrite Hunique.
  unfold write_file, modify.
  change (fs (sent w)) with (fs w) in Hres.
  change (fs (set_requests_sent (S (requests_sent w)) w)) with (fs w).
  pose proof Hres as (_ & Hnone%path_exists_false & _). rewrite Hnone.
  change (can_create (set_requests_sent (S (requests_sent w)) w) path)
    with (can_create w path).
  destruct (can_create w path) eqn:Hcreate.
  2:{ by eapply run_write_refused. }
  unfold store.
  change (disk_free (set_requests_sent (S (requests_sent w)) w))
    with (disk_free w).
  destruct (length c <=? disk_free w)%nat eqn:Hroom.
  - apply Nat.leb_le in Hroom.
    eapply run_of_eq; [by eapply run_accepted|reflexivity].
  - apply Nat.leb_gt in Hroom.
    eapply run_of_eq; [by eapply run_disk_full|reflexivity].
Qed.

(** ** What every run has in common *)

Lemma outcomes_app (evs1 evs2 : list event) :
  outcomes (evs1 ++ evs2) = outcomes evs1 ++ outcomes evs2.
Proof. apply omap_app. Qed.

Lemma requested_app (evs1 evs2 : list event) :
  requested (evs1 ++ evs2) = requested evs1 ++ requested evs2.
Proof. apply omap_app. Qed.

Lemma persisted_app (evs1 evs2 : list event) :
  persisted (evs1 ++ evs2) = persisted evs1 ++ persisted evs2.
Proof. apply omap_app. Qed.

Lemma hashes_of_app (l1 l2 : list (string * list byte)) :
  hashes_of (l1 ++ l2) = hashes_of l1 ∪ hashes_of l2.
Proof. unfold hashes_of. by rewrite fmap_app, list_to_set_app_L. Qed.

(** One run: one request, one result, and the boolean tells success. *)
Lemma run_returns (url : string) (w : world) (r : result bool) (w' : world)
    (evs : list event) :
  run_of url w (r, w', evs) →
  ∃ o, outcomes evs = [o] ∧ r = Ok (is_success o) ∧ requested evs = [url].
Proof. inversion 1; subst; eexists; split_and!; reflexivity. Qed.

Lemma grows_refl (w w' : world) (evs : list event) :
  fs w' = fs w → downloaded_hashes w' = downloaded_hashes w → persisted evs = [] →
  grows w w' evs.
Proof.
  intros Hfs Hh Hp. unfold grows. rewrite Hfs, Hh, Hp. split_and!.
  - done.
  - unfold hashes_of. simpl. set_solver.
  - intros p c Hin. by apply elem_of_nil in Hin.
Qed.

Lemma grows_trans (w1 w2 w3 : world) (evs1 evs2 : list event) :
  grows w1 w2 evs1 → grows w2 w3 evs2 → grows w1 w3 (evs1 ++ evs2).
Proof.
  intros (Hfs1 & Hh1 & Hp1) (Hfs2 & Hh2 & Hp2). split_and!.
  - by etrans.
  - rewrite Hh2, Hh1, persisted_app, hashes_of_app. set_solver.
  - intros p c. rewrite persisted_app, elem_of_app. intros [Hin|Hin].
    + destruct (Hp1 p c Hin) as [rd Hl]. exists rd.
      by eapply lookup_weaken.
    + by apply Hp2.
Qed.

Lemma run_grows (url : string) (w : world) (r : result bool) (w' : world)
    (evs : list event) :
  run_of url w (r, w', evs) → grows w w' evs.
Proof.
  inversion 1; subst; try (by apply grows_refl).
  - (* the disk fills up: a truncated file appears at a fresh path *)
    match goal with
    | Hres : reserved _ _ _ _ |- _ => destruct Hres as (_ & Hfree%path_exists_false & _)
    end.
    split_and!; cbn.
    + by apply insert_subseteq.
    + unfold hashes_of. simpl. set_solver.
    + intros p c' Hin. by apply elem_of_nil in Hin.
  - (* accepted *)
    match goal with
    | Hres : reserved _ _ _ _ |- _ => destruct Hres as (_ & Hfree%path_exists_false & _)
    end.
    split_and!; cbn.
    + by apply insert_subseteq.
    + unfold hashes_of. simpl. set_solver.
    + intros p c' Hin. apply list_elem_of_singleton in Hin. simplify_eq.
      exists true. apply lookup_insert_eq.
Qed.

(** ** The batch loop *)

Lemma count_cons (f : FetchResult → bool) (o : FetchResult) (l : list FetchResult) :
  count f (o :: l) = ((if f o then 1 else 0) + count f l)%nat.
Proof.
  unfold count. rewrite filter_cons.
  destruct (f o); by destruct (decide _).
Qed.

Lemma count_success (l : list FetchResult) :
  count is_success l = (count is_accepted l + count is_duplicate_result l)%nat.
Proof.
  induction l as [|o l IH]; [done|].
  rewrite !count_cons, IH. destruct o; simpl; lia.
Qed.

(** The loop never stops early: it returns the count it started with plus
    the successes of its own fetches, and it has requested every entry that
    is not blank, in order. *)
Lemma download_loop_run (n i : nat) (urls : list string) (acc : nat) (w : world) :
  ∃ w' evs,
    download_loop n i urls acc w
    = (Ok (acc + count is_success (outcomes evs))%nat, w', evs)
    ∧ requested evs = filter (λ u, Py.truthy u = true) (Py.strip <$> urls)
    ∧ length (outcomes evs) = length (requested evs)
    ∧ grows w w' evs.
Proof.
  revert i acc w. induction urls as [|url urls IH]; intros i acc w.
  { exists w, []. split_and!; [|done|done|by apply grows_refl].
    unfold count. simpl. unfold ret. do 3 f_equal. lia. }
  cbn [download_loop]. unfold bind at 1. unfold print, emit.
  rewrite fmap_cons, filter_cons.
  destruct (Py.truthy (Py.strip url)) eqn:Hblank.
  - unfold bind at 1.
    destruct (download_single_image (Py.strip url) w) as [[r w1] evs1] eqn:Hrun.
    pose proof (download_single_image_run (Py.strip url) w) as Hr.
    rewrite Hrun in Hr.
    pose proof (run_grows _ _ _ _ _ Hr) as Hg1.
    apply run_returns in Hr as (o & Hout & -> & Hreq).
    destruct (IH (S i) (if is_success o then S acc else acc) w1)
      as (w' & evs2 & Hloop & Hreq2 & Hlen & Hg2).
    rewrite Hloop.
    exists w', (EvPrint (MsgProcessing i n) :: evs1 ++ evs2).
    assert (outcomes (EvPrint (MsgProcessing i n) :: evs1 ++ evs2)
            = o :: outcomes evs2) as Ho.
    { change (outcomes (EvPrint (MsgProcessing i n) :: evs1 ++ evs2))
        with (outcomes (evs1 ++ evs2)).
      by rewrite outcomes_app, Hout. }
    assert (requested (EvPrint (MsgProcessing i n) :: evs1 ++ evs2)
            = Py.strip url :: requested evs2) as Hq.
    { change (requested (EvPrint (MsgProcessing i n) :: evs1 ++ evs2))
        with (requested (evs1 ++ evs2)).
      by rewrite requested_app, Hreq. }
    rewrite Ho, Hq, count_cons. split_and!.
    + cbn [app]. do 3 f_equal. destruct (is_success o); lia.
    + rewrite Hreq2. by destruct (decide _).
    + simpl. by rewrite Hlen.
    + apply (grows_trans w w w' [EvPrint (MsgProcessing i n)] (evs1 ++ evs2)).
      * by apply grows_refl.
      * by eapply grows_trans.
  - destruct (IH (S i) acc w) as (w' & evs2 & Hloop & Hreq2 & Hlen & Hg2).
    rewrite Hloop.
    exists w', (EvPrint (MsgProcessing i n) :: evs2). split_and!.
    + reflexivity.
    + destruct (decide _) as [Heq|_]; [congruence|]. done.
    + done.
    + apply (grows_trans w w w' [EvPrint (MsgProcessing i n)] evs2);
        [by apply grows_refl|done].
Qed.

(** ** The scan at the start *)

Lemma scan_file_run (file : string) (w : world) :
  scan_file file w
  = match fs w !! OsPath.join download_dir file with
    | Some (File c true) =>
        (Ok tt,
         set_downloaded_hashes ({[get_file_hash c]} ∪ downloaded_hashes w) w,
         [EvReadFile (OsPath.join download_dir file) (Some c)])
    | Some (File c false) =>
        (Ok tt, w, [EvReadFile (OsPath.join download_dir file) None])
    | _ => (Ok tt, w, [])
    end.
Proof.
  unfold scan_file, bind, gets, path_isfile, try_except, read_file, modify.
  destruct (fs w !! OsPath.join download_dir file) as [[c []|]|] eqn:Hl;
    cbn; rewrite ?Hl; reflexivity.
Qed.

Lemma hashes_of_cons (p : string) (c : list byte) (l : list (string * list byte)) :
  hashes_of ((p, c) :: l) = {[get_file_hash c]} ∪ hashes_of l.
Proof. reflexivity. Qed.

Lemma for_each_scan_file (files : list string) (w : world) :
  ∃ reads,
    for_each files scan_file w
    = (Ok tt,
       set_downloaded_hashes
         (downloaded_hashes w ∪ hashes_of (scanned_in (fs w) files)) w,
       reads)
    ∧ persisted reads = scanned_in (fs w) files
    ∧ Forall is_file_read reads.
Proof.
  revert w. induction files as [|file files IH]; intros w.
  { exists []. split_and!; [|done|done].
    unfold hashes_of. simpl. rewrite (right_id_L ∅ (∪)). by destruct w. }
  cbn [for_each]. unfold bind. rewrite scan_file_run.
  unfold scanned_in. cbn [omap list_omap].
  fold (scanned_in (fs w) files).
  destruct (fs w !! OsPath.join download_dir file) as [[c []|]|] eqn:Hl.
  - destruct (IH (set_downloaded_hashes
                    ({[get_file_hash c]} ∪ downloaded_hashes w) w))
      as (reads & Hrun & Hp & Hall).
    rewrite Hrun.
    exists (EvReadFile (OsPath.join download_dir file) (Some c) :: reads).
    split_and!.
    + unfold set_downloaded_hashes. cbn [fs disk_free cwd_writable network
        requests_sent downloaded_hashes app].
      do 2 f_equal. f_equal. rewrite hashes_of_cons. set_solver.
    + cbn. f_equal. apply Hp.
    + constructor; [done|apply Hall].
  - destruct (IH w) as (reads & Hrun & Hp & Hall).
    rewrite Hrun.
    exists (EvReadFile (OsPath.join download_dir file) None :: reads).
    split_and!; [reflexivity|apply Hp|].
    constructor; [done|apply Hall].
  - destruct (IH w) as (reads & Hrun & Hp & Hall).
    rewrite Hrun. exists reads. split_and!; [reflexivity|apply Hp|apply Hall].
  - destruct (IH w) as (reads & Hrun & Hp & Hall).
    rewrite Hrun. exists reads. split_and!; [reflexivity|apply Hp|apply Hall].
Qed.

Lemma scanned_present (f : gmap string node) :
  is_Some (f !! download_dir) →
  scanned f = scanned_in f (listdir f download_dir).
Proof.
  intros Hdir. unfold scanned, path_exists. by rewrite bool_decide_eq_true_2.
Qed.

Lemma scanned_absent (f : gmap string node) :
  f !! download_dir = None → scanned f = [].
Proof.
  intros Hdir. unfold scanned, path_exists.
  rewrite bool_decide_eq_false_2; [done|]. rewrite Hdir. by intros [? ?].
Qed.

Lemma init_run (w : world) :
  match fs w !! download_dir with
  | None => init w = (Ok tt, set_downloaded_hashes ∅ w, [])
  | Some (Dir true _) =>
      ∃ reads,
        init w
        = (Ok tt, set_downloaded_hashes (hashes_of (scanned (fs w))) w,
           EvListdir download_dir :: reads)
        ∧ persisted reads = scanned (fs w)
        ∧ Forall is_file_read reads
  | Some _ =>
      init w = (Raise OSError, set_downloaded_hashes ∅ w, [EvListdir download_dir])
  end.
Proof.
  unfold init, load_existing_hashes, bind, modify, gets, path_exists, os_listdir.
  cbv beta.
  change (fs (set_downloaded_hashes ∅ w)) with (fs w).
  destruct (fs w !! download_dir) as [[c rd|[] wr]|] eqn:Hdir.
  - rewrite bool_decide_eq_true_2 by eauto. cbv beta.
    change (fs (set_downloaded_hashes ∅ w)) with (fs w). by rewrite Hdir.
  - rewrite bool_decide_eq_true_2 by eauto. cbv beta.
    change (fs (set_downloaded_hashes ∅ w)) with (fs w). rewrite Hdir.
    destruct (for_each_scan_file (listdir (fs w) download_dir)
                (set_downloaded_hashes ∅ w)) as (reads & Hrun & Hp & Hall).
    rewrite Hrun. exists reads.
    split_and!; [|by rewrite scanned_present by eauto|done].
    cbn [app]. do 2 f_equal. unfold set_downloaded_hashes.
    cbn [fs disk_free cwd_writable network requests_sent downloaded_hashes].
    f_equal. rewrite scanned_present by eauto. apply (left_id_L ∅ (∪)).
  - rewrite bool_decide_eq_true_2 by eauto. cbv beta.
    change (fs (set_downloaded_hashes ∅ w)) with (fs w). by rewrite Hdir.
  - rewrite bool_decide_eq_false_2; [done|]. by intros [? ?].
Qed.

Lemma main_startup_run (w : world) :
  match fs w !! download_dir with
  | None =>
      main_startup w
      = if cwd_writable w
        then (Ok tt,
              set_fs (<[download_dir := Dir true true]> (fs w))
                (set_downloaded_hashes ∅ w),
              [EvMakedirs download_dir])
        else (Raise OSError, set_downloaded_hashes ∅ w, [EvMakedirs download_dir])
  | Some (Dir true _) =>
      ∃ reads,
        main_startup w
        = (Ok tt, set_downloaded_hashes (hashes_of (scanned (fs w))) w,
           [EvListdir download_dir] ++ reads ++ [EvMakedirs download_dir])
        ∧ persisted reads = scanned (fs w)
        ∧ Forall is_file_read reads
  | Some _ =>
      main_startup w
      = (Raise OSError, set_downloaded_hashes ∅ w, [EvListdir download_dir])
  end.
Proof.
  pose proof (init_run w) as Hinit. unfold main_startup, bind.
  destruct (fs w !! download_dir) as [[c rd|[] wr]|] eqn:Hdir.
  - by rewrite Hinit.
  - destruct Hinit as (reads & -> & Hp & Hall). exists reads.
    split_and!; [|done|done].
    unfold os_makedirs.
    change (fs (set_downloaded_hashes (hashes_of (scanned (fs w))) w)) with (fs w).
    by rewrite Hdir.
  - by rewrite Hinit.
  - rewrite Hinit. unfold os_makedirs.
    change (fs (set_downloaded_hashes ∅ w)) with (fs w). rewrite Hdir.
    change (can_create (set_downloaded_hashes ∅ w) download_dir)
      with (cwd_writable w).
    by destruct (cwd_writable w).
Qed.

(** ** The entries of the collection directory *)

Lemma substring_whole (m : nat) (s : string) :
  (String.length s ≤ m)%nat → String.substring 0 m s = s.
Proof.
  revert m. induction s as [|a s IH]; intros [|m] Hm; simpl in *; try done; try lia.
  f_equal. apply IH. lia.
Qed.

Lemma prefix_substring (pre p : string) (m : nat) :
  String.prefix pre p = true → (String.length p ≤ m)%nat →
  pre +:+ String.substring (String.length pre) m p = p.
Proof.
  revert p. induction pre as [|a pre IH]; intros p Hpre Hm.
  { by apply substring_whole. }
  destruct p as [|b p]; [done|].
  cbn [String.prefix] in Hpre. destruct (ascii_dec a b) as [->|]; [|done].
  rewrite string_app_cons. cbn [String.length String.substring].
  f_equal. apply IH; [done|]. simpl in Hm. lia.
Qed.

Lemma has_char_prefix (c : ascii) (s : string) :
  Py.has_char c s = false → String.prefix (String c EmptyString) s = false.
Proof.
  destruct s as [|a s]; [done|]. cbn [Py.has_char String.prefix].
  intros [Hc _]%orb_false_elim. destruct (ascii_dec c a) as [->|]; [|done].
  by rewrite Ascii.eqb_refl in Hc.
Qed.

(** An entry listed for the collection directory is found again by joining
    its name to the directory. *)
Lemma entry_name_join (p name : string) :
  entry_name download_dir p = Some name → OsPath.join download_dir name = p.
Proof.
  unfold entry_name.
  destruct (String.prefix (download_dir +:+ "/") p) eqn:Hpre; [|done].
  destruct (Py.truthy _ && negb (Py.has_char "/" _) && _ && _) eqn:Hc; [|done].
  intros [= <-].
  apply andb_prop in Hc as [[[_ Hslash]%andb_prop _]%andb_prop _].
  apply negb_true_iff, has_char_prefix in Hslash.
  rewrite join_download_dir, Hslash.
  unfold Py.slice_from, Py.len. rewrite Nat2Z.id.
  apply (prefix_substring _ _ _ Hpre). lia.
Qed.

Lemma elem_of_listdir (f : gmap string node) (name : string) :
  name ∈ listdir f download_dir
  ↔ ∃ p, is_Some (f !! p) ∧ entry_name download_dir p = Some name.
Proof.
  unfold listdir. rewrite list_elem_of_omap. split.
  - intros ([p n] & Hin%elem_of_map_to_list & Hname). eauto.
  - intros (p & [n Hl] & Hname). exists (p, n).
    by rewrite elem_of_map_to_list.
Qed.

(** The scan indexes exactly the readable regular files that lie directly
    inside the collection directory. *)
Lemma elem_of_scanned (f : gmap string node) (p : string) (c : list byte) :
  (p, c) ∈ scanned f
  ↔ is_Some (f !! download_dir)
    ∧ f !! p = Some (File c true)
    ∧ is_Some (entry_name download_dir p).
Proof.
  unfold scanned, path_exists. case_bool_decide as Hdir.
  2:{ split; [by intros ?%elem_of_nil|by intros [? _]]. }
  unfold scanned_in. rewrite list_elem_of_omap. split.
  - intros (name & Hin & Hg).
    apply elem_of_listdir in Hin as (q & _ & Hname).
    rewrite (entry_name_join _ _ Hname) in Hg.
    destruct (f !! q) as [[c' []|]|] eqn:Hl; simplify_eq. eauto.
  - intros (_ & Hl & name & Hname). exists name. split.
    + apply elem_of_listdir. eauto.
    + by rewrite (entry_name_join _ _ Hname), Hl.
Qed.

(** ** Commands and sessions *)

Lemma download_single_image_grows (url : string) (w : world) :
  ∃ b w' evs, download_single_image url w = (Ok b, w', evs) ∧ grows w w' evs.
Proof.
  destruct (download_single_image url w) as [[r w'] evs] eqn:Hrun.
  pose proof (download_single_image_run url w) as Hr. rewrite Hrun in Hr.
  pose proof (run_grows _ _ _ _ _ Hr) as Hg.
  apply run_returns in Hr as (o & _ & -> & _). eauto.
Qed.

Lemma run_command_run (c : command) (w : world) :
  ∃ w' evs, run_command c w = (Ok tt, w', evs) ∧ grows w w' evs.
Proof.
  destruct c as [url|urls]; unfold run_command.
  - destruct (Py.truthy (Py.strip url)).
    + destruct (download_single_image_grows (Py.strip url) w)
        as (b & w' & evs & Hrun & Hg).
      unfold bind. rewrite Hrun. exists w', (evs ++ []).
      split; [done|]. by rewrite app_nil_r.
    + exists w, []. split; [done|by apply grows_refl].
  - destruct urls as [|url urls].
    + exists w, []. split; [done|by apply grows_refl].
    + unfold download_multiple_images.
      destruct (download_loop_run (length (url :: urls)) 1 (url :: urls) 0 w)
        as (w' & evs & Hrun & _ & _ & Hg).
      unfold bind. rewrite Hrun. exists w', (evs ++ []).
      split; [done|]. by rewrite app_nil_r.
Qed.

Lemma for_each_run_command (cmds : list command) (w : world) :
  ∃ w' evs, for_each cmds run_command w = (Ok tt, w', evs) ∧ grows w w' evs.
Proof.
  revert w. induction cmds as [|c cmds IH]; intros w.
  { exists w, []. split; [done|by apply grows_refl]. }
  destruct (run_command_run c w) as (w1 & evs1 & Hrun1 & Hg1).
  destruct (IH w1) as (w2 & evs2 & Hrun2 & Hg2).
  cbn [for_each]. unfold bind. rewrite Hrun1, Hrun2.
  exists w2, (evs1 ++ evs2). split; [done|by eapply grows_trans].
Qed.

Lemma grows_hashes (w w' : world) (evs : list event) :
  grows w w' evs → downloaded_hashes w ⊆ downloaded_hashes w'.
Proof. intros (_ & -> & _). set_solver. Qed.

(** A world whose hash set is that of the contents [evs] persisted, each of
    them on disk at its path. *)
Lemma indexed_grows (w w' : world) (evs evs' : list event) :
  downloaded_hashes w = hashes_of (persisted evs) →
  (∀ p c, (p, c) ∈ persisted evs → ∃ rd, fs w !! p = Some (File c rd)) →
  grows w w' evs' →
  downloaded_hashes w' = hashes_of (persisted (evs ++ evs'))
  ∧ ∀ p c, (p, c) ∈ persisted (evs ++ evs') → ∃ rd, fs w' !! p = Some (File c rd).
Proof.
  intros Hh Hp (Hfs & Hh' & Hp'). split.
  - by rewrite Hh', Hh, persisted_app, hashes_of_app.
  - intros p c. rewrite persisted_app, elem_of_app. intros [Hin|Hin].
    + destruct (Hp p c Hin) as [rd Hl]. exists rd. by eapply lookup_weaken.
    + by apply Hp'.
Qed.

Lemma persisted_file_reads (reads : list event) (d : string) :
  persisted (EvListdir d :: reads ++ [EvMakedirs d]) = persisted reads.
Proof.
  change (persisted (EvListdir d :: reads ++ [EvMakedirs d]))
    with (persisted (reads ++ [EvMakedirs d])).
  rewrite persisted_app. cbn. by rewrite app_nil_r.
Qed.

(** The start leaves the hash set equal to the hashes of what the scan read;
    when it succeeds, that is everything [scanned] names. *)
Lemma main_startup_indexed (w0 : world) (r : result unit) (w : world)
    (evs : list event) :
  main_startup w0 = (r, w, evs) →
  downloaded_hashes w = hashes_of (persisted evs)
  ∧ (∀ p c, (p, c) ∈ persisted evs → ∃ rd, fs w !! p = Some (File c rd))
  ∧ (r = Ok tt → persisted evs = scanned (fs w0))
  ∧ (r = Ok tt ∨ r = Raise OSError).
Proof.
  intros Hrun. pose proof (main_startup_run w0) as Hs. rewrite Hrun in Hs.
  destruct (fs w0 !! download_dir) as [[c rd|[] wr]|] eqn:Hdir.
  - simplify_eq. split_and!; [done| |done|by right].
    intros p c' Hin. by apply elem_of_nil in Hin.
  - destruct Hs as (reads & [= -> -> ->] & Hp & _).
    cbn [app]. rewrite persisted_file_reads, Hp.
    split_and!; [done| |done|by left].
    intros p c' (_ & Hl & _)%elem_of_scanned. eauto.
  - simplify_eq. split_and!; [done| |done|by right].
    intros p c' Hin. by apply elem_of_nil in Hin.
  - rewrite (scanned_absent _ Hdir).
    destruct (cwd_writable w0); simplify_eq.
    + split_and!; [done| |done|by left].
      intros p c' Hin. by apply elem_of_nil in Hin.
    + split_and!; [done| |done|by right].
      intros p c' Hin. by apply elem_of_nil in Hin.
Qed.

(** * The claims *)

(** Reads a hypothesis [download_single_image url w = (r, w', evs)] as one of
    the ways of [run_of]. *)
Ltac run_cases Hrun :=
  let Hr := fresh "Hr" in
  lazymatch type of Hrun with
  | download_single_image ?url ?w = _ =>
      pose proof (download_single_image_run url w) as Hr
  end;
  rewrite Hrun in Hr; inversion Hr; subst; clear Hr.

(** Membership of an event in an explicit list of events. *)
Ltac events :=
  unfold preamble; cbn [app];
  rewrite ?elem_of_cons, ?elem_of_nil; naive_solver.

Lemma truthy_true (s : string) : Py.truthy s = true ↔ s ≠ EmptyString.
Proof. by destruct s. Qed.




(** C9, as stated, fails: a [content-length] header that is present with an
    empty value is not a number, yet the size test skips it (the value is
    falsy) and the fetch goes on; here it ends accepted. *)
Lemma empty_content_length_proceeds :
  ¬ (∀ url w resp s,
       network w (requests_sent w) url = Replied resp →
       bad_status resp = false →
       headers_get (headers resp) "content-length" = Some s →
       Py.int s = None →
       fetch_result (download_single_image url w).2 = Some (failed OtherError)).
Proof.
  intros Hclaim.
  specialize (Hclaim "http://x/a.png" (empty_collection empty_length_net) _ EmptyString
                eq_refl eq_refl eq_refl eq_refl).
  vm_compute in Hclaim. discriminate Hclaim.
Qed.

(** C9, amended. When the [content-length] header is present, not empty, and
    [int] refuses it, the fetch stops at the size test: the error is caught by
    the catch-all handler, the result is the generic failure and not
    [TooLarge], no body is read, nothing is written and the hash set stays as
    it was. *)
Theorem bad_content_length_fails (url : string) (w : world) (resp : response)
    (s : string) :
  network w (requests_sent w) url = Replied resp →
  bad_status resp = false →
  headers_get (headers resp) "content-length" = Some s →
  s ≠ EmptyString →
  Py.int s = None →
  download_single_image url w
  = (Ok false, sent w, preamble url ++ [EvPrint MsgErrorOccurred])
  ∧ fetch_result (download_single_image url w).2 = Some (failed OtherError).
Proof.
  intros Hnet Hstatus Hhdr Hne Hint.
  assert (too_large (headers_get (headers resp) "content-length")
          = Raise ValueError) as Hbad.
  { rewrite Hhdr. unfold too_large. apply truthy_true in Hne.
    by rewrite Hne, Hint. }
  destruct (download_single_image url w) as [[r w'] evs] eqn:Hrun.
  run_cases Hrun; try congruence. done.
Qed.

(** C9, amended, on a reply that declares [12abc] bytes. *)
Lemma bad_content_length_fails_witness :
  download_single_image "http://x/a.png" (empty_collection garbled_length_net)
  = (Ok false, sent (empty_collection garbled_length_net),
     preamble "http://x/a.png" ++ [EvPrint MsgErrorOccurred])
  ∧ fetch_result
      (download_single_image "http://x/a.png"
         (empty_collection garbled_length_net)).2
    = Some (failed OtherError).
Proof.
  apply (bad_content_length_fails "http://x/a.png"
           (empty_collection garbled_length_net)
           (Response 200 [("Content-Type", "image/png"); ("Content-Length", "12abc")]
              "http://x/a.png" (Some (bytes_of "hello")))
           "12abc");
    [reflexivity|reflexivity|reflexivity|discriminate|reflexivity].
Defined.

Lemma is_safe_file_type_false (r : response) :
  is_safe_file_type r = Ok false
  ↔ (Py.lower (default EmptyString (headers_get (headers r) "content-type")) ≠ EmptyString
     ∧ ∀ st, st ∈ safe_types →
         Py.contains st
           (Py.lower (default EmptyString (headers_get (headers r) "content-type")))
         = false)
    ∨ ∃ path,
        urlparse_path (resp_url r) = Ok path
        ∧ Py.lower (OsPath.splitext path).2 ≠ EmptyString
        ∧ Py.lower (OsPath.splitext path).2 ∉ safe_extensions.
Proof.
  unfold is_safe_file_type.
  set (ct := Py.lower (default EmptyString (headers_get (headers r) "content-type"))).
  destruct (Py.truthy ct && negb (existsb (λ st, Py.contains st ct) safe_types))
    eqn:Htype.
  - split; [intros _|done]. left.
    apply andb_prop in Htype as [Ht%truthy_true Hnone%negb_true_iff].
    split; [done|]. intros st Hst.
    destruct (Py.contains st ct) eqn:Hc; [|done].
    assert (existsb (λ st, Py.contains st ct) safe_types = true) as Hex.
    { apply existsb_exists. exists st. by rewrite <-list_elem_of_In. }
    congruence.
  - assert (¬ (ct ≠ EmptyString ∧ ∀ st, st ∈ safe_types → Py.contains st ct = false))
      as Hok.
    { intros [Ht%truthy_true Hall]. rewrite Ht in Htype. cbn [andb] in Htype.
      apply negb_false_iff, existsb_exists in Htype as (st & Hst & Hc).
      rewrite <-list_elem_of_In in Hst. rewrite (Hall st Hst) in Hc. done. }
    unfold urlparse_path. destruct (UrlParse.path (resp_url r)) as [path|].
    2:{ split; [done|]. intros [?|(? & ? & _)]; [tauto|done]. }
    set (ext := Py.lower (OsPath.splitext path).2).
    destruct (Py.truthy ext && negb (bool_decide (ext ∈ safe_extensions)))
      eqn:Hext.
    + split; [intros _|done]. right. exists path.
      apply andb_prop in Hext as [He%truthy_true Hn%negb_true_iff].
      apply bool_decide_eq_false in Hn. done.
    + split; [done|]. intros [?|(path' & [= <-] & He%truthy_true & Hn)]; [tauto|].
      fold ext in He, Hn. rewrite He in Hext. cbn [andb] in Hext.
      apply negb_false_iff, bool_decide_eq_true in Hext. done.
Qed.

Lemma is_safe_file_type_true (r : response) (path : string) :
  urlparse_path (resp_url r) = Ok path →
  is_safe_file_type r ≠ Ok false →
  is_safe_file_type r = Ok true.
Proof.
  unfold is_safe_file_type. intros ->.
  by repeat (destruct (_ && _)).
Qed.

(** C3. The type test answers "unsafe" exactly when a signal that is present
    is disallowed: a content-type header that is not empty and, put in lower
    case, contains none of the six image types (whatever the URL), or an
    extension of the path of the response's URL that is not empty and, put in
    lower case, is none of the six extensions (whatever the content-type).  A
    missing header or a missing extension alone does not reject.  A fetch is
    rejected as [UnsafeType] exactly when it reaches the test and the test
    answers "unsafe". *)
Theorem type_safety_stage (url : string) (w : world) :
  (∀ r : response,
     let content_type :=
       Py.lower (default EmptyString (headers_get (headers r) "content-type")) in
     let type_disallowed :=
       content_type ≠ EmptyString
       ∧ ∀ st, st ∈ ["image/jpeg"; "image/jpg"; "image/png"; "image/gif";
                     "image/webp"; "image/bmp"] →
           Py.contains st content_type = false in
     let extension_disallowed := λ path : string,
       Py.lower (OsPath.splitext path).2 ≠ EmptyString
       ∧ Py.lower (OsPath.splitext path).2
         ∉ [".jpg"; ".jpeg"; ".png"; ".gif"; ".webp"; ".bmp"] in
     (is_safe_file_type r = Ok false
      ↔ type_disallowed
        ∨ ∃ path, urlparse_path (resp_url r) = Ok path ∧ extension_disallowed path)
     ∧ (type_disallowed → is_safe_file_type r = Ok false)
     ∧ (∀ path, urlparse_path (resp_url r) = Ok path →
          extension_disallowed path → is_safe_file_type r = Ok false)
     ∧ (∀ path, urlparse_path (resp_url r) = Ok path →
          ¬ type_disallowed → ¬ extension_disallowed path →
          is_safe_file_type r = Ok true)
     ∧ (headers_get (headers r) "content-type" = None → ¬ type_disallowed)
     ∧ (∀ path, (OsPath.splitext path).2 = EmptyString → ¬ extension_disallowed path))
  ∧ (fetch_result (download_single_image url w).2 = Some (rejected UnsafeType)
     ↔ ∃ resp,
         network w (requests_sent w) url = Replied resp
         ∧ bad_status resp = false
         ∧ too_large (headers_get (headers resp) "content-length") = Ok false
         ∧ is_safe_file_type resp = Ok false)
  ∧ is_safe_file_type
      (Response 200 [("Content-Type", "text/html")] "http://x/a.png" None)
    = Ok false
  ∧ is_safe_file_type (Response 200 [] "http://x/a.png" None) = Ok true
  ∧ is_safe_file_type
      (Response 200 [("Content-Type", "image/png")] "http://x/a.exe" None)
    = Ok false.
Proof.
  split_and!; try reflexivity.
  - intros r content_type type_disallowed extension_disallowed.
    pose proof (is_safe_file_type_false r) as Hiff.
    fold content_type in Hiff.
    change (is_safe_file_type r = Ok false
            ↔ type_disallowed
              ∨ ∃ path, urlparse_path (resp_url r) = Ok path
                        ∧ extension_disallowed path) in Hiff.
    split_and!.
    + exact Hiff.
    + intros Ht. apply Hiff. by left.
    + intros path Hpath Hext. apply Hiff. right. eauto.
    + intros path Hpath Ht Hext. apply (is_safe_file_type_true r path Hpath).
      intros [?|(path' & Hpath' & Hext')]%Hiff; [done|].
      rewrite Hpath in Hpath'. by injection Hpath' as <-.
    + intros Hnone [Hne _]. apply Hne. unfold content_type. by rewrite Hnone.
    + intros path Hnone [Hne _]. apply Hne. by rewrite Hnone.
  - destruct (download_single_image url w) as [[r w'] evs] eqn:Hrun. split.
    + intros Hres. run_cases Hrun; try discriminate Hres. eauto 10.
    + intros (resp & Hnet & Hstatus & Hlen & Hsafe).
      run_cases Hrun; try congruence; reflexivity.
Qed.

(** C4. The "ensure unique filename" block always hands over a path that does
    not exist: the directory joined with the wanted name when that path is
    free, and otherwise with [base_N.ext], where [(base, ext)] splits the
    wanted name and [N] is the least number from 1 on whose path is free. *)
Theorem reserve_unique_path (filename : string) (w : world) :
  ∃ name path,
    unique_filename filename w = (Ok (name, path), w, [])
    ∧ path = OsPath.join download_dir name
    ∧ fs w !! path = None
    ∧ (fs w !! OsPath.join download_dir filename = None → name = filename)
    ∧ (is_Some (fs w !! OsPath.join download_dir filename) →
       ∃ N : nat,
         (1 ≤ N)%nat
         ∧ name = (OsPath.splitext filename).1 +:+ "_" +:+ pretty N
                  +:+ (OsPath.splitext filename).2
         ∧ ∀ k : nat, (1 ≤ k < N)%nat →
             is_Some
               (fs w !! OsPath.join download_dir
                          ((OsPath.splitext filename).1 +:+ "_" +:+ pretty k
                           +:+ (OsPath.splitext filename).2))).
Proof.
  destruct (unique_filename_reserved filename w)
    as (name & path & Hrun & Hpath & Hfree & Hname).
  exists name, path. split_and!; [done|done|by apply path_exists_false| |].
  - intros Hnone%path_exists_false. by rewrite Hnone in Hname.
  - intros Hsome. unfold path_exists in Hname at 1.
    rewrite bool_decide_eq_true_2 in Hname by done.
    destruct Hname as (N & HN & -> & Hused). exists N. split_and!; [done|done|].
    intros k Hk. specialize (Hused k Hk).
    unfold path_exists in Hused. by apply bool_decide_eq_true in Hused.
Qed.

(** C7. A fetch that ends rejected, as too large or as an unsafe type, has
    read no byte of the body; and whenever the body is read, the request had
    succeeded and both the size test and the type test had passed. *)
Theorem rejection_precedes_body_read (url : string) (w : world)
    (r : result bool) (w' : world) (evs : list event) :
  download_single_image url w = (r, w', evs) →
  (∀ why, fetch_result evs = Some (rejected why) → ∀ c, EvReadBody c ∉ evs)
  ∧ (∀ c, EvReadBody c ∈ evs →
       ∃ resp,
         network w (requests_sent w) url = Replied resp
         ∧ bad_status resp = false
         ∧ too_large (headers_get (headers resp) "content-length") = Ok false
         ∧ is_safe_file_type resp = Ok true
         ∧ body resp = c).
Proof.
  intros Hrun. split.
  - intros why Hres c. run_cases Hrun; try discriminate Hres; events.
  - intros c Hin. run_cases Hrun; try (exfalso; revert Hin; events);
      (assert (c = body r0) as ->
         by (revert Hin; unfold preamble; cbn [app];
             rewrite ?elem_of_cons, ?elem_of_nil; naive_solver));
      eauto 10.
Qed.

(** C7 on a URL that ends in [.exe]. *)
Lemma rejection_precedes_body_read_witness :
  fetch_result
    (download_single_image "http://x/a.exe" (empty_collection hello_net)).2
  = Some (rejected UnsafeType)
  ∧ ∀ c, EvReadBody c
         ∉ (download_single_image "http://x/a.exe" (empty_collection hello_net)).2.
Proof.
  split; [reflexivity|].
  exact (proj1 (rejection_precedes_body_read "http://x/a.exe"
                  (empty_collection hello_net) _ _ _ eq_refl)
           UnsafeType eq_refl).
Defined.

(** C10. The hash set changes together with acceptance: an accepted fetch
    adds the hash of the body it read, which is then stored at the path
    reported, and every other fetch, whether duplicate, rejected or failed,
    leaves the set as it was. *)
Theorem hash_set_follows_acceptance (url : string) (w : world)
    (r : result bool) (w' : world) (evs : list event) :
  download_single_image url w = (r, w', evs) →
  match fetch_result evs with
  | Some (accepted path) =>
      ∃ c, EvReadBody (Some c) ∈ evs
           ∧ EvWriteFile path c true ∈ evs
           ∧ fs w' !! path = Some (File c true)
           ∧ (get_file_hash c ∉ downloaded_hashes w)
           ∧ downloaded_hashes w' = {[get_file_hash c]} ∪ downloaded_hashes w
  | _ => downloaded_hashes w' = downloaded_hashes w
  end.
Proof.
  intros Hrun. run_cases Hrun; try reflexivity.
  exists c. split_and!; [events|events| |done|done].
  cbn. apply lookup_insert_eq.
Qed.

Lemma hello_run_eq :
  download_single_image "http://x/a.png" (empty_collection hello_net)
  = (hello_run.1.1, hello_run.1.2, hello_run.2).
Proof. vm_compute. reflexivity. Qed.

(** C10 on the first fetch into an empty collection. *)
Lemma hash_set_follows_acceptance_witness :
  ∃ c, EvReadBody (Some c) ∈ hello_run.2
       ∧ EvWriteFile "Fetched_Images/a.png" c true ∈ hello_run.2
       ∧ fs hello_run.1.2 !! "Fetched_Images/a.png" = Some (File c true)
       ∧ (get_file_hash c ∉ downloaded_hashes (empty_collection hello_net))
       ∧ downloaded_hashes hello_run.1.2
         = {[get_file_hash c]} ∪ downloaded_hashes (empty_collection hello_net).
Proof.
  exact (hash_set_follows_acceptance "http://x/a.png"
           (empty_collection hello_net) _ _ _ hello_run_eq).
Defined.

(** C5. [download_multiple_images] goes through the list in order, requests
    every entry that is not blank once stripped, whatever the earlier fetches
    did, and returns the number of accepted fetches plus the number of
    duplicates; no exception and no other result stops it. *)
Theorem batch_accounting (urls : list string) (w : world) :
  ∃ w' evs,
    download_multiple_images urls w
    = (Ok (count is_accepted (outcomes evs)
           + count is_duplicate_result (outcomes evs))%nat,
       w', evs)
    ∧ requested evs = filter (λ u, Py.truthy u = true) (Py.strip <$> urls)
    ∧ length (outcomes evs) = length (requested evs).
Proof.
  destruct (download_loop_run (length urls) 1 urls 0 w)
    as (w' & evs & Hrun & Hreq & Hlen & _).
  exists w', evs. split_and!; [|done|done].
  unfold download_multiple_images. rewrite Hrun, count_success. done.
Qed.

(** ** The hash set over a session *)

Lemma elem_of_hashes_of (h : string) (l : list (string * list byte)) :
  h ∈ hashes_of l ↔ ∃ p c, (p, c) ∈ l ∧ h = get_file_hash c.
Proof.
  unfold hashes_of. rewrite elem_of_list_to_set, list_elem_of_fmap. split.
  - intros ([p c] & -> & Hin). eauto.
  - intros (p & c & Hin & ->). by exists (p, c).
Qed.

Lemma session_indexed (cmds : list command) (w0 : world) (r : result unit)
    (w : world) (evs : list event) :
  session cmds w0 = (r, w, evs) →
  downloaded_hashes w = hashes_of (persisted evs)
  ∧ (∀ p c, (p, c) ∈ persisted evs → ∃ rd, fs w !! p = Some (File c rd))
  ∧ (r = Ok tt → ∀ pc, pc ∈ scanned (fs w0) → pc ∈ persisted evs).
Proof.
  unfold session, bind. intros Hrun.
  destruct (main_startup w0) as [[r1 w1] evs1] eqn:Hstart.
  destruct (main_startup_indexed _ _ _ _ Hstart) as (Hh & Hp & Hsc & [->| ->]).
  - destruct (for_each_run_command cmds w1) as (w2 & evs2 & Hcmds & Hg).
    rewrite Hcmds in Hrun. injection Hrun as <- <- <-.
    destruct (indexed_grows _ _ _ _ Hh Hp Hg) as [Hh' Hp'].
    split_and!; [done|done|]. intros _ pc Hin.
    rewrite persisted_app, elem_of_app, Hsc by done. by left.
  - injection Hrun as <- <- <-. split_and!; [done|done|done].
Qed.

(** C6. At every point of a session, after the start and after each command,
    the hash set holds exactly the hashes of the contents that the scan at the
    start has read and that accepted downloads have stored in full; each of
    these contents is still on disk at its path; after a start that
    succeeded, every readable regular file directly inside the directory is
    among them; and no later command takes a hash out of the set. *)
Theorem hash_index_invariant (cmds : list command) (w0 : world)
    (r : result unit) (w : world) (evs : list event) :
  session cmds w0 = (r, w, evs) →
  (∀ h, h ∈ downloaded_hashes w
        ↔ ∃ p c, (p, c) ∈ persisted evs ∧ h = get_file_hash c)
  ∧ (∀ p c, (p, c) ∈ persisted evs → ∃ rd, fs w !! p = Some (File c rd))
  ∧ (r = Ok tt →
     ∀ p c, is_Some (fs w0 !! download_dir) →
            fs w0 !! p = Some (File c true) →
            is_Some (entry_name download_dir p) →
            get_file_hash c ∈ downloaded_hashes w)
  ∧ (∀ more r' w' evs',
       for_each more run_command w = (r', w', evs') →
       downloaded_hashes w ⊆ downloaded_hashes w').
Proof.
  intros Hrun. destruct (session_indexed _ _ _ _ _ Hrun) as (Hh & Hp & Hsc).
  split_and!.
  - intros h. by rewrite Hh, elem_of_hashes_of.
  - done.
  - intros -> p c Hdir Hl Hname. rewrite Hh, elem_of_hashes_of.
    exists p, c. split; [|done]. apply Hsc; [done|]. by apply elem_of_scanned.
  - intros more r' w' evs' Hmore.
    destruct (for_each_run_command more w) as (w2 & evs2 & Hcmds & Hg).
    rewrite Hcmds in Hmore. injection Hmore as <- <- <-.
    by eapply grows_hashes.
Qed.

Lemma sample_session_eq :
  session sample_commands counting_collection
  = (sample_session.1.1, sample_session.1.2, sample_session.2).
Proof. vm_compute. reflexivity. Qed.

(** C6 on a session of two commands over a collection of one file. *)
Lemma hash_index_invariant_witness :
  (∀ h, h ∈ downloaded_hashes sample_session.1.2
        ↔ ∃ p c, (p, c) ∈ persisted sample_session.2 ∧ h = get_file_hash c)
  ∧ (∀ p c, (p, c) ∈ persisted sample_session.2 →
            ∃ rd, fs sample_session.1.2 !! p = Some (File c rd)).
Proof.
  pose proof (hash_index_invariant sample_commands counting_collection
                _ _ _ sample_session_eq) as (Hh & Hp & _).
  exact (conj Hh Hp).
Defined.

(** ** Duplicates *)

Lemma files_with_insert (c : list byte) (f : gmap string node) (p : string) :
  f !! p = None →
  files_with c (<[p := File c true]> f) = S (files_with c f).
Proof.
  intros Hnone. unfold files_with.
  rewrite map_filter_insert_True by (simpl; by apply bool_decide_eq_true).
  apply map_size_insert_None. by apply map_lookup_filter_None_2; left.
Qed.

(** A fetch that reads a body whose hash is in the set is a duplicate: it
    reports success, writes nothing and changes neither the files nor the
    set. *)
Lemma duplicate_when_indexed (url : string) (w : world) (r : result bool)
    (w' : world) (evs : list event) (c : list byte) :
  download_single_image url w = (r, w', evs) →
  EvReadBody (Some c) ∈ evs →
  get_file_hash c ∈ downloaded_hashes w →
  r = Ok true
  ∧ fetch_result evs = Some duplicate
  ∧ (∀ p b ok, EvWriteFile p b ok ∉ evs)
  ∧ fs w' = fs w
  ∧ downloaded_hashes w' = downloaded_hashes w.
Proof.
  intros Hrun Hin Hh.
  run_cases Hrun; try (exfalso; revert Hin; events);
    try (assert (c0 = c) as ->
           by (revert Hin; unfold preamble; cbn [app];
               rewrite ?elem_of_cons, ?elem_of_nil; naive_solver);
         done).
  assert (c0 = c) as ->
    by (revert Hin; unfold preamble; cbn [app];
        rewrite ?elem_of_cons, ?elem_of_nil; naive_solver).
  split_and!; try done. intros p b ok. events.
Qed.

(** An accepted fetch puts the hash of its body into the set and adds one
    file with these bytes. *)
Lemma accepted_adds_one_file (url : string) (w : world) (r : result bool)
    (w' : world) (evs : list event) (path : string) (c : list byte) :
  download_single_image url w = (r, w', evs) →
  fetch_result evs = Some (accepted path) →
  EvReadBody (Some c) ∈ evs →
  get_file_hash c ∈ downloaded_hashes w'
  ∧ files_with c (fs w') = S (files_with c (fs w)).
Proof.
  intros Hrun Hres Hin. run_cases Hrun; try discriminate Hres.
  assert (c0 = c) as ->
    by (revert Hin; unfold preamble; cbn [app];
        rewrite ?elem_of_cons, ?elem_of_nil; naive_solver).
  match goal with
  | Hr : reserved _ _ _ _ |- _ => destruct Hr as (_ & Hfree%path_exists_false & _)
  end.
  split; [cbn; set_solver|]. cbn. by apply files_with_insert.
Qed.

(** C1, as stated, fails for a file that is present at the start but cannot
    be read: the scan skips it, its hash is not in the set, and a fetch of the
    same bytes is accepted and stored a second time. *)
Lemma unreadable_startup_file_is_fetched_again :
  ¬ (∀ w0 w evs0 p c rd url,
       main_startup w0 = (Ok tt, w, evs0) →
       is_Some (entry_name download_dir p) →
       fs w0 !! p = Some (File c rd) →
       EvReadBody (Some c) ∈ (download_single_image url w).2 →
       fetch_result (download_single_image url w).2 = Some duplicate).
Proof.
  intros Hclaim.
  assert (fetch_result
            (download_single_image "http://x/a.png"
               (main_startup unreadable_collection).1.2).2
          = Some duplicate) as Hdup.
  { apply (Hclaim unreadable_collection _
             (main_startup unreadable_collection).2
             "Fetched_Images/old.png" (bytes_of "hello") false).
    - vm_compute. reflexivity.
    - vm_compute. eauto.
    - vm_compute. reflexivity.
    - vm_compute. repeat constructor. }
  vm_compute in Hdup. discriminate Hdup.
Qed.

(** C1, amended.  A fetch whose body has the bytes of an earlier accepted
    fetch, or of a regular file that lay directly inside the collection
    directory at the start and could be read, is a duplicate, whatever
    commands ran in between: it reports success, writes no file and leaves
    files and hash set as they were.  The accepted fetch added exactly one
    file with these bytes, so that after the two fetches, one right after the
    other, there is one such file more than before the first. *)
Theorem dedup_idempotence :
  (∀ url1 url2 w w1 w2 w3 r1 r2 evs1 evs2 path c cmds rc evsc,
     download_single_image url1 w = (r1, w1, evs1) →
     fetch_result evs1 = Some (accepted path) →
     EvReadBody (Some c) ∈ evs1 →
     for_each cmds run_command w1 = (rc, w2, evsc) →
     download_single_image url2 w2 = (r2, w3, evs2) →
     EvReadBody (Some c) ∈ evs2 →
     r2 = Ok true
     ∧ fetch_result evs2 = Some duplicate
     ∧ (∀ p b ok, EvWriteFile p b ok ∉ evs2)
     ∧ fs w3 = fs w2
     ∧ downloaded_hashes w3 = downloaded_hashes w2
     ∧ files_with c (fs w1) = S (files_with c (fs w))
     ∧ (cmds = [] → files_with c (fs w3) = S (files_with c (fs w))))
  ∧ (∀ url w0 w w2 w3 evs0 p c r evs cmds rc evsc,
       main_startup w0 = (Ok tt, w, evs0) →
       is_Some (fs w0 !! download_dir) →
       fs w0 !! p = Some (File c true) →
       is_Some (entry_name download_dir p) →
       for_each cmds run_command w = (rc, w2, evsc) →
       download_single_image url w2 = (r, w3, evs) →
       EvReadBody (Some c) ∈ evs →
       r = Ok true
       ∧ fetch_result evs = Some duplicate
       ∧ (∀ q b ok, EvWriteFile q b ok ∉ evs)
       ∧ fs w3 = fs w2
       ∧ downloaded_hashes w3 = downloaded_hashes w2).
Proof.
  split.
  - intros url1 url2 w w1 w2 w3 r1 r2 evs1 evs2 path c cmds rc evsc
      Hrun1 Hres1 Hin1 Hcmds Hrun2 Hin2.
    destruct (accepted_adds_one_file _ _ _ _ _ _ _ Hrun1 Hres1 Hin1)
      as [Hh Hcount].
    destruct (for_each_run_command cmds w1) as (w2' & evsc' & Hc & Hg).
    rewrite Hc in Hcmds. injection Hcmds as <- <- <-.
    apply grows_hashes in Hg.
    destruct (duplicate_when_indexed _ _ _ _ _ _ Hrun2 Hin2)
      as (-> & Hres2 & Hw & Hfs & Hhs); [set_solver|].
    split_and!; try done.
    intros ->. cbn in Hc. injection Hc as <- _. by rewrite Hfs.
  - intros url w0 w w2 w3 evs0 p c r evs cmds rc evsc
      Hstart Hdir Hfile Hname Hcmds Hrun Hin.
    destruct (main_startup_indexed _ _ _ _ Hstart) as (Hh & _ & Hsc & _).
    assert (get_file_hash c ∈ downloaded_hashes w) as Hin0.
    { rewrite Hh, Hsc by done. apply elem_of_hashes_of. exists p, c.
      split; [|done]. by apply elem_of_scanned. }
    destruct (for_each_run_command cmds w) as (w2' & evsc' & Hc & Hg).
    rewrite Hc in Hcmds. injection Hcmds as <- <- <-.
    apply grows_hashes in Hg.
    apply (duplicate_when_indexed _ _ _ _ _ _ Hrun Hin). set_solver.
Qed.

Lemma hello_rerun_eq :
  download_single_image "http://x/a.png" hello_run.1.2
  = (hello_rerun.1.1, hello_rerun.1.2, hello_rerun.2).
Proof. vm_compute. reflexivity. Qed.

(** C1, amended, on the same URL fetched twice into an empty collection. *)
Lemma dedup_idempotence_witness :
  hello_rerun.1.1 = Ok true
  ∧ fetch_result hello_rerun.2 = Some duplicate
  ∧ (∀ p b ok, EvWriteFile p b ok ∉ hello_rerun.2)
  ∧ fs hello_rerun.1.2 = fs hello_run.1.2
  ∧ downloaded_hashes hello_rerun.1.2 = downloaded_hashes hello_run.1.2
  ∧ files_with (bytes_of "hello") (fs hello_run.1.2)
    = S (files_with (bytes_of "hello") (fs (empty_collection hello_net)))
  ∧ (@nil command = [] →
     files_with (bytes_of "hello") (fs hello_rerun.1.2)
     = S (files_with (bytes_of "hello") (fs (empty_collection hello_net)))).
Proof.
  apply (proj1 dedup_idempotence "http://x/a.png" "http://x/a.png"
           (empty_collection hello_net) hello_run.1.2 hello_run.1.2
           hello_rerun.1.2 hello_run.1.1 hello_rerun.1.1 hello_run.2
           hello_rerun.2 "Fetched_Images/a.png" (bytes_of "hello") []
           (Ok tt) []).
  - exact hello_run_eq.
  - reflexivity.
  - vm_compute. repeat constructor.
  - reflexivity.
  - exact hello_rerun_eq.
  - vm_compute. repeat constructor.
Defined.

(** C8, as stated, fails: [main] constructs the fetcher, which scans, and
    makes sure of the directory only afterwards.  On a collection that is
    already there the directory is listed (event 0) before [os.makedirs] is
    called (event 2). *)
Lemma scan_precedes_makedirs :
  ¬ (∀ w0 i j,
       (main_startup w0).2 !! i = Some (EvListdir download_dir) →
       (main_startup w0).2 !! j = Some (EvMakedirs download_dir) →
       (j < i)%nat).
Proof.
  intros Hclaim.
  assert (2 < 0)%nat as Hlt; [|lia].
  apply (Hclaim readable_collection); vm_compute; reflexivity.
Qed.

(** C8, amended.  The start scans first and makes sure of the directory
    afterwards.  When the directory is missing, nothing is scanned, the hash
    set is empty and the directory is created; when it cannot be created the
    start fails.  When the directory is there and can be listed, the start
    succeeds whatever files cannot be read: the hash set holds the hashes of
    the regular files directly inside it that can be read, the call that
    makes sure of the directory comes last and changes nothing.  When the
    path is a regular file, or a directory that cannot be listed, the start
    fails at the listing. *)
Theorem startup_scans_then_creates (w0 : world) :
  match fs w0 !! download_dir with
  | None =>
      main_startup w0
      = if cwd_writable w0
        then (Ok tt,
              set_fs (<[download_dir := Dir true true]> (fs w0))
                (set_downloaded_hashes ∅ w0),
              [EvMakedirs download_dir])
        else (Raise OSError, set_downloaded_hashes ∅ w0,
              [EvMakedirs download_dir])
  | Some (Dir true _) =>
      ∃ reads,
        main_startup w0
        = (Ok tt, set_downloaded_hashes (hashes_of (scanned (fs w0))) w0,
           [EvListdir download_dir] ++ reads ++ [EvMakedirs download_dir])
        ∧ Forall is_file_read reads
        ∧ persisted reads = scanned (fs w0)
        ∧ ∀ p c, (p, c) ∈ scanned (fs w0)
                 ↔ fs w0 !! p = Some (File c true)
                   ∧ is_Some (entry_name download_dir p)
  | Some _ =>
      main_startup w0
      = (Raise OSError, set_downloaded_hashes ∅ w0, [EvListdir download_dir])
  end.
Proof.
  pose proof (main_startup_run w0) as Hs.
  destruct (fs w0 !! download_dir) as [[c rd|[] wr]|] eqn:Hdir; try done.
  destruct Hs as (reads & Hrun & Hp & Hall). exists reads.
  split_and!; [done|done|done|].
  intros p c. rewrite elem_of_scanned. rewrite Hdir. naive_solver.
Qed.

(** * Further properties of the code *)

(** ** Slices, searches and names *)









Lemma has_char_drop (c : ascii) (n : nat) (s : string) :
  Py.has_char c s = false → Py.has_char c (str_drop n s) = false.
Proof.
  revert s. induction n as [|n IH]; intros [|a s]; simpl; try done.
  intros [_ Hs]%orb_false_elim. by apply IH.
Qed.



















(** ** One fetch *)
















(** ** The batch *)

Lemma run_no_progress (url : string) (w : world) (r : result bool)
    (w' : world) (evs : list event) :
  run_of url w (r, w', evs) →
  filter (λ e, is_progress e = false) evs = evs
  ∧ filter (λ e, is_progress e = true) evs = [].
Proof. inversion 1; subst; split; reflexivity. Qed.

Lemma run_one_request (url : string) (w : world) (r : result bool)
    (w' : world) (evs : list event) :
  run_of url w (r, w', evs) → requests_sent w' = S (requests_sent w).
Proof. inversion 1; subst; reflexivity. Qed.

(** The loop of the batch, from any position and count. *)
Lemma download_loop_fold (n i : nat) (urls : list string) (acc : nat) (w : world) :
  ∃ k w' evs,
    download_loop n i urls acc w = (Ok (acc + k)%nat, w', evs)
    ∧ fetch_each (filter (λ u, Py.truthy u = true) (Py.strip <$> urls)) w
      = (Ok k, w', filter (λ e, is_progress e = false) evs)
    ∧ filter (λ e, is_progress e = true) evs
      = (λ j, EvPrint (MsgProcessing j n)) <$> seq i (length urls)
    ∧ (k ≤ length (filter (λ u, Py.truthy u = true) (Py.strip <$> urls)))%nat
    ∧ requests_sent w'
      = (requests_sent w
         + length (filter (λ u, Py.truthy u = true) (Py.strip <$> urls)))%nat
    ∧ (filter (λ u, Py.truthy u = true) (Py.strip <$> urls) = [] → w' = w).
Proof.
  revert i acc w. induction urls as [|url urls IH]; intros i acc w.
  { exists 0%nat, w, []. split_and!; try done; try (simpl; lia).
    cbn [download_loop]. unfold ret. by rewrite Nat.add_0_r. }
  cbn [download_loop]. unfold bind at 1. unfold print, emit.
  rewrite fmap_cons, filter_cons.
  destruct (Py.truthy (Py.strip url)) eqn:Hblank.
  - unfold bind at 1.
    destruct (download_single_image (Py.strip url) w) as [[r w1] evs1] eqn:Hrun.
    pose proof (download_single_image_run (Py.strip url) w) as Hr.
    rewrite Hrun in Hr.
    destruct (run_no_progress _ _ _ _ _ Hr) as [Hkeep Hnone].
    pose proof (run_one_request _ _ _ _ _ Hr) as Hsent.
    apply run_returns in Hr as (o & _ & -> & _).
    destruct (IH (S i) (if is_success o then S acc else acc) w1)
      as (k & w' & evs2 & Hloop & Heach & Hprog & Hle & Hreq & _).
    rewrite Hloop.
    exists ((if is_success o then 1 else 0) + k)%nat, w',
      (EvPrint (MsgProcessing i n) :: evs1 ++ evs2).
    destruct (decide (true = true)) as [_|?]; [|done].
    split_and!.
    + cbn [app]. do 3 f_equal. destruct (is_success o); lia.
    + cbn [fetch_each]. unfold bind at 1. rewrite Hrun.
      unfold bind at 1. rewrite Heach. unfold ret.
      rewrite filter_cons. destruct (decide _) as [?|_]; [done|].
      rewrite filter_app, Hkeep, app_nil_r. done.
    + rewrite filter_cons. destruct (decide _) as [_|?]; [|done].
      rewrite filter_app, Hnone, Hprog. done.
    + cbn [length]. destruct (is_success o); lia.
    + cbn [length]. lia.
    + done.
  - destruct (IH (S i) acc w)
      as (k & w' & evs2 & Hloop & Heach & Hprog & Hle & Hreq & Hsame).
    rewrite Hloop. exists k, w', (EvPrint (MsgProcessing i n) :: evs2).
    destruct (decide (false = true)) as [?|_]; [done|].
    split_and!; try done.
    rewrite filter_cons. destruct (decide _) as [_|?]; [|done].
    by rewrite Hprog.
Qed.

(** X8.  [download_multiple_images] does what calling
    [download_single_image] on each stripped, non-blank entry in turn does:
    the count it returns is the number of [True]s, the world it leaves is the
    same, and so is everything done and printed, apart from the progress
    lines.  There is one progress line for every entry, blank ones included,
    numbered from 1 to the length of the list. *)
Theorem batch_is_single_fetches (urls : list string) (w : world) :
  ∃ n w' evs,
    download_multiple_images urls w = (Ok n, w', evs)
    ∧ fetch_each (filter (λ u, Py.truthy u = true) (Py.strip <$> urls)) w
      = (Ok n, w', filter (λ e, is_progress e = false) evs)
    ∧ filter (λ e, is_progress e = true) evs
      = (λ i, EvPrint (MsgProcessing i (length urls))) <$> seq 1 (length urls).
Proof.
  destruct (download_loop_fold (length urls) 1 urls 0 w)
    as (k & w' & evs & Hloop & Heach & Hprog & _).
  exists k, w', evs. done.
Qed.

(** X9.  The count of a batch is at most the number of non-blank entries,
    so at most the length of the list, and the batch sends one request for
    each non-blank entry.  A list that is empty or has blank entries only
    gives 0 and leaves the world as it is. *)
Theorem batch_count_bounds (urls : list string) (w : world) :
  ∃ n w' evs,
    download_multiple_images urls w = (Ok n, w', evs)
    ∧ (n ≤ length (filter (λ u, Py.truthy u = true) (Py.strip <$> urls)))%nat
    ∧ (length (filter (λ u, Py.truthy u = true) (Py.strip <$> urls))
       ≤ length urls)%nat
    ∧ requests_sent w'
      = (requests_sent w
         + length (filter (λ u, Py.truthy u = true) (Py.strip <$> urls)))%nat
    ∧ (Forall (λ u, Py.strip u = EmptyString) urls →
       n = 0%nat ∧ w' = w ∧ requested evs = []).
Proof.
  destruct (download_loop_fold (length urls) 1 urls 0 w)
    as (k & w' & evs & Hloop & _ & _ & Hle & Hreq & Hsame).
  destruct (download_loop_run (length urls) 1 urls 0 w)
    as (w'' & evs' & Hloop' & Hrequested & _).
  rewrite Hloop in Hloop'. injection Hloop' as Hk <- <-.
  exists k, w', evs. split_and!; try done.
  - etrans; [apply length_filter|]. by rewrite length_fmap.
  - intros Hblank.
    assert (filter (λ u, Py.truthy u = true) (Py.strip <$> urls) = []) as Hnil.
    { clear -Hblank. induction Hblank as [|u urls Hu _ IH]; [done|].
      rewrite fmap_cons, filter_cons, Hu.
      destruct (decide (Py.truthy EmptyString = true)); done. }
    rewrite Hnil in *. split_and!; [simpl in Hle; lia|by apply Hsame|done].
Qed.

(** ** The scan *)



(** ** The type test *)

Lemma lower_app (a b : string) : Py.lower (a +:+ b) = Py.lower a +:+ Py.lower b.
Proof.
  induction a as [|x a IH]; [done|].
  rewrite string_app_cons. cbn [Py.lower]. by rewrite string_app_cons, IH.
Qed.

Lemma prefix_app (a b : string) : String.prefix a (a +:+ b) = true.
Proof.
  induction a as [|x a IH]; [apply prefix_empty|].
  rewrite string_app_cons. cbn [String.prefix].
  destruct (ascii_dec x x); [done|congruence].
Qed.

Lemma contains_app (sub a b : string) :
  Py.contains sub (a +:+ sub +:+ b) = true.
Proof.
  induction a as [|x a IH].
  - change (EmptyString +:+ sub +:+ b) with (sub +:+ b).
    destruct (sub +:+ b) eqn:Heq; cbn [Py.contains]; rewrite <- Heq;
      by rewrite prefix_app.
  - rewrite string_app_cons. cbn [Py.contains]. rewrite IH. apply orb_true_r.
Qed.

(** X11.  The header test of [is_safe_file_type] looks for an allowed type
    anywhere in the content-type and in any letter case: a content-type that
    has one of the six types somewhere inside it passes, whatever stands
    before and after, and the answer is [False] only when the extension of
    the path of the reply's URL is not empty and not allowed. *)
Theorem content_type_found_anywhere (r : response)
    (content_type before st after : string) :
  headers_get (headers r) "content-type" = Some content_type →
  content_type = before +:+ st +:+ after →
  Py.lower st ∈ safe_types →
  is_safe_file_type r = Ok false
  ↔ ∃ path,
      urlparse_path (resp_url r) = Ok path
      ∧ Py.lower (OsPath.splitext path).2 ≠ EmptyString
      ∧ Py.lower (OsPath.splitext path).2 ∉ safe_extensions.
Proof.
  intros Hhdr -> Hst. rewrite is_safe_file_type_false, Hhdr.
  cbn [default from_option id].
  split; [|by right].
  intros [[_ Hnone]|Hext]; [|done].
  specialize (Hnone _ Hst). rewrite !lower_app, contains_app in Hnone. done.
Qed.

(** X11 on a page of text whose content-type names an image type in a
    parameter, written in capitals: the page passes the test. *)
Lemma content_type_found_anywhere_witness :
  (is_safe_file_type
     (Response 200 [("Content-Type", "text/html; was=IMAGE/PNG;")]
        "http://x/page" None) = Ok false
   ↔ ∃ path,
       urlparse_path "http://x/page" = Ok path
       ∧ Py.lower (OsPath.splitext path).2 ≠ EmptyString
       ∧ Py.lower (OsPath.splitext path).2 ∉ safe_extensions)
  ∧ is_safe_file_type
      (Response 200 [("Content-Type", "text/html; was=IMAGE/PNG;")]
         "http://x/page" None) = Ok true.
Proof.
  split; [|reflexivity].
  apply (content_type_found_anywhere
           (Response 200 [("Content-Type", "text/html; was=IMAGE/PNG;")]
              "http://x/page" None)
           "text/html; was=IMAGE/PNG;" "text/html; was=" "IMAGE/PNG" ";").
  - reflexivity.
  - reflexivity.
  - vm_compute. set_solver.
Defined.

(** ** [main] *)

Lemma fetcher_events_app (evs1 evs2 : list main_event) :
  fetcher_events (evs1 ++ evs2) = fetcher_events evs1 ++ fetcher_events evs2.
Proof. apply omap_app. Qed.

Lemma lines_read_app (evs1 evs2 : list main_event) :
  lines_read (evs1 ++ evs2) = lines_read evs1 ++ lines_read evs2.
Proof. apply omap_app. Qed.

Lemma fetcher_events_did (evs : list event) : fetcher_events (Did <$> evs) = evs.
Proof. induction evs as [|e evs IH]; [done|]. simpl. f_equal. exact IH. Qed.

Lemma lines_read_did (evs : list event) : lines_read (Did <$> evs) = [].
Proof. induction evs as [|e evs IH]; [done|]. simpl. exact IH. Qed.

Lemma summary_ok_did (evs : list event) : Forall summary_ok (Did <$> evs).
Proof. induction evs as [|e evs IH]; by constructor. Qed.

(** The loop that reads the URLs of choice 2 stops at the first blank line
    with the lines before it, stripped; without a blank line it runs into the
    end of the input. *)
Lemma read_urls_run (lines : list string) (fuel : nat) (urls : list string)
    (w : world) :
  (length lines < fuel)%nat →
  ∃ r rest evs,
    read_urls fuel urls (Console w lines) = (r, Console w rest, evs)
    ∧ fetcher_events evs = []
    ∧ lines = lines_read evs ++ rest
    ∧ Forall summary_ok evs
    ∧ match r with
      | Returned urls' =>
          commands_typed (InList urls) lines
          = Multiple urls' :: commands_typed AtMenu rest
          ∧ exit_typed (InList urls) lines = exit_typed AtMenu rest
          ∧ (length rest < length lines)%nat
      | EOFError =>
          commands_typed (InList urls) lines = []
          ∧ exit_typed (InList urls) lines = false
          ∧ rest = []
      | _ => False
      end.
Proof.
  revert fuel urls. induction lines as [|typed lines IH]; intros fuel urls Hfuel.
  { destruct fuel as [|fuel]; [simpl in Hfuel; lia|].
    exists EOFError, [], [Asked PromptNone None]. split_and!; try done.
    repeat constructor. }
  destruct fuel as [|fuel]; [simpl in Hfuel; lia|].
  cbn [read_urls]. unfold main_bind at 1. unfold input at 1.
  cbn [stdin the_world].
  destruct (Py.truthy (Py.strip typed)) eqn:Hblank; cbn [negb].
  - destruct (IH fuel (urls ++ [Py.strip typed])) as (r & rest & evs & Hrun & Hf & Hl & Hok & Hr).
    { simpl in Hfuel. lia. }
    rewrite Hrun. exists r, rest, ([Asked PromptNone (Some typed)] ++ evs).
    split_and!; try done.
    + simpl. by rewrite Hl.
    + by constructor.
    + cbn [commands_typed exit_typed]. rewrite Hblank.
      destruct r; try done.
      destruct Hr as (Hc & He & Hlen). split_and!; try done. simpl. lia.
  - exists (Returned urls), lines, ([Asked PromptNone (Some typed)] ++ []).
    split_and!; try done.
    + repeat constructor.
    + cbn [commands_typed]. by rewrite Hblank.
    + cbn [exit_typed]. by rewrite Hblank.
    + simpl. lia.
Qed.

Lemma for_each_app {A} (xs ys : list A) (body : A → M unit) (w w1 w2 : world)
    (r : result unit) (evs1 evs2 : list event) :
  for_each xs body w = (Ok tt, w1, evs1) →
  for_each ys body w1 = (r, w2, evs2) →
  for_each (xs ++ ys) body w = (r, w2, evs1 ++ evs2).
Proof.
  revert w evs1. induction xs as [|x xs IH]; intros w evs1 Hxs Hys.
  { injection Hxs as <- <-. done. }
  cbn [for_each app] in *. unfold bind in *.
  destruct (body x w) as [[[[]| |] w0] evs0]; try done.
  destruct (for_each xs body w0) as [[r' w'] evs'] eqn:Hrest.
  injection Hxs as -> -> <-.
  rewrite (IH _ _ Hrest Hys). by rewrite app_assoc.
Qed.

(** The count of a batch is at most the length of the list. *)
Lemma batch_count (urls : list string) (w : world) :
  ∃ n w' evs,
    download_multiple_images urls w = (Ok n, w', evs) ∧ (n ≤ length urls)%nat.
Proof.
  destruct (download_loop_fold (length urls) 1 urls 0 w)
    as (k & w' & evs & Hloop & _ & _ & Hle & _).
  exists k, w', evs. split; [done|].
  etrans; [exact Hle|]. etrans; [apply length_filter|]. by rewrite length_fmap.
Qed.

Lemma menu_round_run (lines : list string) (w : world) :
  ∃ r s' evs,
    menu_round (Console w lines) = (r, s', evs)
    ∧ lines = lines_read evs ++ stdin s'
    ∧ Forall summary_ok evs
    ∧ match r with
      | Returned true =>
          (∃ cmds,
             commands_typed AtMenu lines
             = cmds ++ commands_typed AtMenu (stdin s')
             ∧ for_each cmds run_command w
               = (Ok tt, the_world s', fetcher_events evs))
          ∧ exit_typed AtMenu lines = exit_typed AtMenu (stdin s')
          ∧ (length (stdin s') < length lines)%nat
      | Returned false =>
          commands_typed AtMenu lines = []
          ∧ exit_typed AtMenu lines = true
          ∧ the_world s' = w
          ∧ fetcher_events evs = []
          ∧ ∃ evs0, evs = evs0 ++ [Said LineThanks; Said LineGoForth]
      | EOFError =>
          commands_typed AtMenu lines = []
          ∧ exit_typed AtMenu lines = false
          ∧ the_world s' = w
          ∧ fetcher_events evs = []
          ∧ stdin s' = []
      | _ => False
      end.
Proof.
  unfold menu_round.
  do 4 (unfold main_bind at 1; unfold say at 1).
  unfold main_bind at 1. unfold input at 1. cbn [stdin the_world].
  destruct lines as [|typed lines].
  { eexists _, _, _. split; [reflexivity|]. split_and!; try done.
    repeat constructor. }
  cbv zeta.
  destruct (String.eqb (Py.strip typed) "1") eqn:H1.
  { unfold main_bind at 1. unfold input at 1. cbn [stdin the_world].
    destruct lines as [|url lines].
    { eexists _, _, _. split; [reflexivity|]. split_and!; try done.
      - repeat constructor.
      - cbn [commands_typed]. by rewrite H1.
      - cbn [exit_typed]. by rewrite H1. }
    destruct (Py.truthy (Py.strip url)) eqn:Hurl.
    - unfold main_bind at 1. unfold call at 1. cbn [stdin the_world].
      destruct (download_single_image_grows (Py.strip url) w)
        as (b & w' & evs & Hrun & _).
      rewrite Hrun.
      unfold main_bind at 1. unfold say at 1. unfold main_ret.
      eexists _, _, _. split; [reflexivity|]. cbn [stdin the_world].
      split_and!.
      + rewrite !lines_read_app, lines_read_did. done.
      + rewrite !Forall_app. split_and!; try (by repeat constructor).
        apply summary_ok_did.
      + exists [Single url]. cbn [commands_typed]. rewrite H1. split; [done|].
        cbn [for_each run_command]. rewrite Hurl. unfold bind. rewrite Hrun.
        rewrite !fetcher_events_app, fetcher_events_did. unfold ret.
        cbn [fetcher_events omap list_omap app]. by rewrite !app_nil_r.
      + cbn [exit_typed]. by rewrite H1.
      + simpl. lia.
    - unfold main_bind at 1. unfold say at 1. unfold main_ret.
      eexists _, _, _. split; [reflexivity|]. cbn [stdin the_world].
      split_and!; try done.
      + repeat constructor.
      + exists [Single url]. cbn [commands_typed]. rewrite H1. split; [done|].
        cbn [for_each run_command]. rewrite Hurl. done.
      + cbn [exit_typed]. by rewrite H1.
      + simpl. lia. }
  destruct (String.eqb (Py.strip typed) "2") eqn:H2.
  { unfold main_bind at 1. unfold say at 1.
    unfold main_bind at 1. cbn [stdin the_world].
    destruct (read_urls_run lines (S (length lines)) [] w)
      as (r & rest & evs & Hread & Hf & Hl & Hok & Hr); [lia|].
    rewrite Hread. destruct r as [urls| | |]; try done.
    - destruct Hr as (Hc & He & Hlen). destruct urls as [|url urls].
      + unfold main_bind at 1. unfold say at 1. unfold main_ret.
        eexists _, _, _. split; [reflexivity|]. cbn [stdin the_world].
        split_and!.
        * rewrite !lines_read_app. cbn [lines_read omap list_omap app].
          rewrite app_nil_r. cbn [app]. by rewrite <- Hl.
        * rewrite !Forall_app. split_and!; by repeat constructor.
        * exists [Multiple []]. cbn [commands_typed]. rewrite H1, H2.
          split; [done|].
          rewrite !fetcher_events_app, Hf. done.
        * cbn [exit_typed]. by rewrite H1, H2.
        * simpl. lia.
      + unfold main_bind at 1. unfold call at 1. cbn [stdin the_world].
        destruct (batch_count (url :: urls) w)
          as (n & w' & evs' & Hrun & Hn).
        rewrite Hrun.
        do 2 (unfold main_bind at 1; unfold say at 1). unfold main_ret.
        eexists _, _, _. split; [reflexivity|]. cbn [stdin the_world].
        split_and!.
        * rewrite !lines_read_app, lines_read_did.
          cbn [lines_read omap list_omap app].
          rewrite app_nil_r. cbn [app]. by rewrite <- Hl.
        * rewrite !Forall_app. split_and!; try (by repeat constructor); try done.
          -- apply summary_ok_did.
          -- apply Forall_singleton. simpl in *. lia.
        * exists [Multiple (url :: urls)]. cbn [commands_typed].
          rewrite H1, H2. split; [done|].
          cbn [for_each run_command]. unfold bind. rewrite Hrun.
          rewrite !fetcher_events_app, fetcher_events_did, Hf. unfold ret.
          cbn [fetcher_events omap list_omap app]. by rewrite !app_nil_r.
        * cbn [exit_typed]. by rewrite H1, H2.
        * simpl. lia.
    - destruct Hr as (Hc & He & ->).
      eexists _, _, _. split; [reflexivity|]. cbn [stdin the_world].
      split_and!; try done;
        try (rewrite !lines_read_app; cbn [lines_read omap list_omap app];
             by rewrite <- Hl);
        try (rewrite !Forall_app; split_and!; by repeat constructor);
        try (cbn [commands_typed exit_typed]; by rewrite H1, H2);
        try (rewrite !fetcher_events_app, Hf; done). }
  destruct (String.eqb (Py.strip typed) "3") eqn:H3.
  { do 2 (unfold main_bind at 1; unfold say at 1). unfold main_ret.
    eexists _, _, _. split; [reflexivity|]. cbn [stdin the_world].
    split_and!; try done.
    - repeat constructor.
    - cbn [commands_typed]. by rewrite H1, H2, H3.
    - cbn [exit_typed]. by rewrite H1, H2, H3.
    - eexists (menu_lines ++ [_]). reflexivity. }
  unfold main_bind at 1. unfold say at 1. unfold main_ret.
  eexists _, _, _. split; [reflexivity|]. cbn [stdin the_world].
  split_and!; try done.
  - repeat constructor.
  - exists []. cbn [commands_typed]. by rewrite H1, H2, H3.
  - cbn [exit_typed]. by rewrite H1, H2, H3.
  - simpl. lia.
Qed.

(** The menu loop, given one round more than there are lines. *)
Lemma menu_loop_run (fuel : nat) (lines : list string) (w : world) :
  (length lines < fuel)%nat →
  ∃ r s' evs,
    menu_loop fuel (Console w lines) = (r, s', evs)
    ∧ for_each (commands_typed AtMenu lines) run_command w
      = (Ok tt, the_world s', fetcher_events evs)
    ∧ r = (if exit_typed AtMenu lines then Returned tt else EOFError)
    ∧ lines = lines_read evs ++ stdin s'
    ∧ (r = EOFError → stdin s' = [])
    ∧ (r = Returned tt → ∃ evs0, evs = evs0 ++ [Said LineThanks; Said LineGoForth])
    ∧ Forall summary_ok evs.
Proof.
  revert lines w. induction fuel as [|fuel IH]; intros lines w Hfuel; [lia|].
  cbn [menu_loop]. unfold main_bind at 1.
  destruct (menu_round_run lines w) as (r & s' & evs & Hround & Hl & Hok & Hr).
  rewrite Hround. destruct r as [[|]| | |]; try done.
  - destruct Hr as ((cmds & Hc & Hcmds) & He & Hlen).
    destruct s' as [w1 rest]. cbn [stdin the_world] in *.
    destruct (IH rest w1) as (r2 & s2 & evs2 & Hloop & Hrest & Hr2 & Hl2 & Heof & Hbye & Hok2);
      [lia|].
    rewrite Hloop. exists r2, s2, (evs ++ evs2). split_and!; try done.
    + rewrite Hc, fetcher_events_app. by eapply for_each_app.
    + by rewrite He.
    + rewrite lines_read_app, <- app_assoc, <- Hl2. done.
    + intros Hret. destruct (Hbye Hret) as [evs0 ->].
      exists (evs ++ evs0). by rewrite app_assoc.
    + by apply Forall_app.
  - destruct Hr as (Hc & He & Hw & Hf & evs0 & Hevs).
    unfold main_ret. exists (Returned tt), s', (evs ++ []).
    rewrite app_nil_r. split_and!; try done.
    + rewrite Hc, Hf, Hw. done.
    + by rewrite He.
    + intros _. by exists evs0.
  - destruct Hr as (Hc & He & Hw & Hf & Hrest).
    exists EOFError, s', evs. split_and!; try done.
    + rewrite Hc, Hf, Hw. done.
    + by rewrite He.
Qed.

(** [main] from the start to its end. *)
Lemma main_run (w : world) (lines : list string) :
  ∃ r s' evs rs,
    main (Console w lines) = (r, s', evs)
    ∧ session (commands_typed AtMenu lines) w
      = (rs, the_world s', fetcher_events evs)
    ∧ lines = lines_read evs ++ stdin s'
    ∧ Forall summary_ok evs
    ∧ match rs with
      | Ok _ =>
          r = (if exit_typed AtMenu lines then Returned tt else EOFError)
          ∧ (r = EOFError → stdin s' = [])
          ∧ (r = Returned tt →
             ∃ evs0, evs = evs0 ++ [Said LineThanks; Said LineGoForth])
      | Raise e => e = OSError ∧ r = Uncaught OSError ∧ lines_read evs = []
      | OutOfFuel => False
      end.
Proof.
  unfold main. do 4 (unfold main_bind at 1; unfold say at 1).
  unfold main_bind at 1. unfold call at 1. cbn [the_world stdin].
  unfold session. unfold bind at 1.
  destruct (main_startup w) as [[r0 w0] evs0] eqn:Hstart.
  pose proof (main_startup_indexed _ _ _ _ Hstart) as (_ & _ & _ & Hr0).
  revert Hstart. unfold main_startup, bind.
  destruct (init w) as [[[[]|e|] wi] ei] eqn:Hinit.
  - unfold main_bind at 1. unfold call at 1. cbn [the_world stdin].
    destruct (os_makedirs download_dir wi) as [[[[]|e|] wm] em] eqn:Hmk;
      intros [= <- <- <-]; destruct Hr0 as [Hr0|Hr0]; try done.
    + destruct (menu_loop_run (S (length lines)) lines wm)
        as (r & s' & evs & Hloop & Hcmds & Hr & Hl & Heof & Hbye & Hok); [lia|].
      cbn [stdin the_world]. rewrite Hloop, Hcmds.
      eexists _, _, _, _. split; [reflexivity|]. split_and!.
      * rewrite !fetcher_events_app, !fetcher_events_did.
        cbn [fetcher_events omap list_omap app]. by rewrite <- app_assoc.
      * rewrite !lines_read_app, !lines_read_did.
        cbn [lines_read omap list_omap app]. done.
      * rewrite !Forall_app. split_and!; try (by repeat constructor);
          try apply summary_ok_did.
      * split_and!; try done. intros Hret. destruct (Hbye Hret) as [evs1 ->].
        eexists. rewrite !app_assoc. reflexivity.
    + injection Hr0 as ->.
      eexists _, _, _, _. split; [reflexivity|]. cbn [the_world stdin].
      split_and!.
      * rewrite !fetcher_events_app, !fetcher_events_did.
        cbn [fetcher_events omap list_omap app]. done.
      * rewrite !lines_read_app, !lines_read_did.
        cbn [lines_read omap list_omap app]. done.
      * rewrite !Forall_app. split_and!; try (by repeat constructor);
          apply summary_ok_did.
      * split_and!; try done.
        rewrite !lines_read_app, !lines_read_did. done.
  - intros [= <- <- <-]. destruct Hr0 as [Hr0|Hr0]; try done.
    injection Hr0 as ->.
    eexists _, _, _, _. split; [reflexivity|]. cbn [the_world stdin].
    split_and!.
    + rewrite !fetcher_events_app, !fetcher_events_did.
      cbn [fetcher_events omap list_omap app]. done.
    + rewrite !lines_read_app, !lines_read_did. done.
    + rewrite !Forall_app. split_and!; try (by repeat constructor);
        apply summary_ok_did.
    + split_and!; try done.
      rewrite !lines_read_app, !lines_read_did. done.
  - intros [= <- <- <-]. by destruct Hr0.
Qed.

(** What holds of every fetch, and goes from step to step, holds of the
    batch, of a command and of a list of commands. *)
Section step_invariant.

Variable R : world → world → list event → Prop.
Hypothesis R_nil : ∀ w, R w w [].
Hypothesis R_progress : ∀ w i n, R w w [EvPrint (MsgProcessing i n)].
Hypothesis R_app :
  ∀ w1 w2 w3 evs1 evs2, R w1 w2 evs1 → R w2 w3 evs2 → R w1 w3 (evs1 ++ evs2).
Hypothesis R_single :
  ∀ url w,
    R w (download_single_image url w).1.2 (download_single_image url w).2.

Lemma download_loop_invariant (n i : nat) (urls : list string) (acc : nat)
    (w : world) (r : result nat) (w' : world) (evs : list event) :
  download_loop n i urls acc w = (r, w', evs) → R w w' evs.
Proof.
  revert i acc w r w' evs.
  induction urls as [|url urls IH]; intros i acc w r w' evs.
  { intros [= <- <- <-]. apply R_nil. }
  cbn [download_loop]. unfold bind at 1. unfold print, emit.
  destruct (Py.truthy (Py.strip url)).
  - unfold bind at 1. pose proof (R_single (Py.strip url) w) as Hone.
    destruct (download_single_image_grows (Py.strip url) w)
      as (b & w1 & evs1 & Hrun & _).
    rewrite Hrun in Hone |- *. cbn [fst snd] in Hone.
    specialize (IH (S i) (if b then S acc else acc) w1).
    destruct (download_loop n (S i) urls (if b then S acc else acc) w1)
      as [[r2 w2] evs2].
    intros [= <- <- <-].
    apply (R_app w w w2 [EvPrint (MsgProcessing i n)] (evs1 ++ evs2));
      [apply R_progress|].
    eapply R_app; [done|by eapply IH].
  - specialize (IH (S i) acc w).
    destruct (download_loop n (S i) urls acc w) as [[r2 w2] evs2].
    intros [= <- <- <-].
    apply (R_app w w w2 [EvPrint (MsgProcessing i n)] evs2);
      [apply R_progress|by eapply IH].
Qed.

Lemma run_command_invariant (c : command) (w : world) (r : result unit)
    (w' : world) (evs : list event) :
  run_command c w = (r, w', evs) → R w w' evs.
Proof.
  destruct c as [url|urls]; unfold run_command.
  - destruct (Py.truthy (Py.strip url)).
    2:{ intros [= <- <- <-]. apply R_nil. }
    unfold bind. pose proof (R_single (Py.strip url) w) as Hone.
    destruct (download_single_image_grows (Py.strip url) w)
      as (b & w1 & evs1 & Hrun & _).
    rewrite Hrun in Hone |- *. cbn [fst snd] in *.
    intros [= <- <- <-]. eapply R_app; [done|apply R_nil].
  - destruct urls as [|url urls].
    { intros [= <- <- <-]. apply R_nil. }
    unfold bind, download_multiple_images.
    destruct (download_loop_run (length (url :: urls)) 1 (url :: urls) 0 w)
      as (w1 & evs1 & Hrun & _).
    pose proof (download_loop_invariant _ _ _ _ _ _ _ _ Hrun) as Hloop.
    rewrite Hrun. intros [= <- <- <-]. eapply R_app; [done|apply R_nil].
Qed.

Lemma for_each_run_command_invariant (cmds : list command) (w : world)
    (r : result unit) (w' : world) (evs : list event) :
  for_each cmds run_command w = (r, w', evs) → R w w' evs.
Proof.
  revert w r w' evs. induction cmds as [|c cmds IH]; intros w r w' evs.
  { intros [= <- <- <-]. apply R_nil. }
  cbn [for_each]. unfold bind.
  destruct (run_command_run c w) as (w1 & evs1 & Hrun & _).
  pose proof (run_command_invariant _ _ _ _ _ Hrun) as Hone.
  rewrite Hrun. specialize (IH w1).
  destruct (for_each cmds run_command w1) as [[r2 w2] evs2].
  intros [= <- <- <-]. eapply R_app; [done|by eapply IH].
Qed.

End step_invariant.








Lemma sample_main_eq :
  main (Console counting_collection sample_stdin)
  = (sample_main.1.1, sample_main.1.2, sample_main.2).
Proof. vm_compute. reflexivity. Qed.

(** X12.  A run of [main] is a session: the lines typed amount to a list of
    commands, and [main] leaves the world, and has the fetcher do, exactly
    what the start followed by these commands gives.  [main] returns when the
    lines reach choice 3 at the menu, and otherwise ends in the [EOFError] of
    [input]; when the start fails, it ends in that [OSError]. *)
Theorem main_runs_session (w : world) (lines : list string) :
  ∃ r s' evs rs,
    main (Console w lines) = (r, s', evs)
    ∧ session (commands_typed AtMenu lines) w
      = (rs, the_world s', fetcher_events evs)
    ∧ ((rs = Ok tt
        ∧ r = if exit_typed AtMenu lines then Returned tt else EOFError)
       ∨ (rs = Raise OSError ∧ r = Uncaught OSError)).
Proof.
  destruct (main_run w lines) as (r & s' & evs & rs & Hmain & Hsess & _ & _ & Hr).
  exists r, s', evs, rs. split_and!; try done.
  destruct rs as [[]|e|]; [left|right|done].
  - by destruct Hr as (-> & _).
  - by destruct Hr as (-> & -> & _).
Qed.




(** ** The hash *)

Lemma hex_digit_lower (n : Z) :
  0 ≤ n < 16 → is_lower_hex (MD5.hex_digit n) = true.
Proof.
  intros Hn.
  assert (n = 0 ∨ n = 1 ∨ n = 2 ∨ n = 3 ∨ n = 4 ∨ n = 5 ∨ n = 6 ∨ n = 7
          ∨ n = 8 ∨ n = 9 ∨ n = 10 ∨ n = 11 ∨ n = 12 ∨ n = 13 ∨ n = 14
          ∨ n = 15) as Hcases by lia.
  repeat destruct Hcases as [->|Hcases]; try reflexivity. by subst.
Qed.

Lemma le_bytes_range (k : nat) (x : Z) :
  length (MD5.le_bytes k x) = k
  ∧ Forall (λ b, 0 ≤ b < 256) (MD5.le_bytes k x).
Proof.
  revert x. induction k as [|k IH]; intros x; [by split|].
  destruct (IH (Z.shiftr x 8)) as [Hlen Hall]. cbn [MD5.le_bytes]. split.
  - simpl. by rewrite Hlen.
  - constructor; [|done].
    change 255 with (Z.ones 8). rewrite Z.land_ones by lia.
    apply Z.mod_pos_bound. lia.
Qed.

Lemma hex_shape (bs : list Z) :
  Forall (λ b, 0 ≤ b < 256) bs →
  String.length (MD5.hex bs) = (2 * length bs)%nat
  ∧ UrlParse.all_chars is_lower_hex (MD5.hex bs) = true.
Proof.
  induction 1 as [|b bs Hb _ [IHlen IHall]]; [done|].
  cbn [MD5.hex]. split.
  - simpl. rewrite IHlen. lia.
  - cbn [UrlParse.all_chars]. rewrite IHall.
    rewrite !hex_digit_lower; [done| |].
    + change 15 with (Z.ones 4). rewrite Z.land_ones by lia.
      apply Z.mod_pos_bound. lia.
    + rewrite Z.shiftr_div_pow2 by lia. split.
      * apply Z.div_pos; lia.
      * apply Z.div_lt_upper_bound; lia.
Qed.

(** X15.  The hash that stands for a content in the set of downloads is
    always a text of 32 characters, each of them one of [0-9a-f], whatever
    the content and its length. *)
Theorem get_file_hash_shape (content : list byte) :
  String.length (get_file_hash content) = 32%nat
  ∧ UrlParse.all_chars is_lower_hex (get_file_hash content) = true.
Proof.
  unfold get_file_hash, MD5.hexdigest.
  destruct (MD5.digest content) as [a b c d].
  destruct (hex_shape (MD5.le_bytes 4 a ++ MD5.le_bytes 4 b
                       ++ MD5.le_bytes 4 c ++ MD5.le_bytes 4 d)) as [Hlen Hall].
  { rewrite !Forall_app. split_and!; apply le_bytes_range. }
  split; [|done]. rewrite Hlen, !length_app.
  by rewrite !(proj1 (le_bytes_range 4 _)).
Qed.

(** ** What a run of [main] stores and requests *)

Lemma stored_hashes_app (evs1 evs2 : list event) :
  stored_hashes (evs1 ++ evs2) = stored_hashes evs1 ++ stored_hashes evs2.
Proof. apply omap_app. Qed.

Lemma stores_new_nil (w : world) : stores_new w w [].
Proof. split_and!; [constructor|done|]. by intros h Hh%elem_of_nil. Qed.

Lemma stores_new_app (w1 w2 w3 : world) (evs1 evs2 : list event) :
  stores_new w1 w2 evs1 → stores_new w2 w3 evs2 →
  stores_new w1 w3 (evs1 ++ evs2).
Proof.
  intros (Hnd1 & Hsub1 & Hin1) (Hnd2 & Hsub2 & Hin2).
  unfold stores_new. rewrite stored_hashes_app. split_and!.
  - apply NoDup_app. split_and!; [done| |done].
    intros h Hh1 Hh2. apply Hin1 in Hh1 as [_ Hh1]. apply Hin2 in Hh2 as [Hh2 _].
    done.
  - set_solver.
  - intros h [Hh|Hh]%elem_of_app.
    + apply Hin1 in Hh as [? ?]. set_solver.
    + apply Hin2 in Hh as [? ?]. set_solver.
Qed.

Lemma single_stores_new (url : string) (w : world) :
  stores_new w (download_single_image url w).1.2 (download_single_image url w).2.
Proof.
  pose proof (download_single_image_run url w) as Hrun.
  destruct (download_single_image url w) as [[r w'] evs]. cbn [fst snd].
  inversion Hrun; subst; try apply stores_new_nil;
    try (split_and!; [constructor|done|by intros h Hh%elem_of_nil]).
  split_and!.
  - apply NoDup_singleton.
  - cbn. set_solver.
  - intros h Hh. apply list_elem_of_singleton in Hh as ->. cbn. set_solver.
Qed.

Lemma reads_store_nothing (reads : list event) :
  Forall is_file_read reads → stored_hashes reads = [] ∧ requested reads = [].
Proof.
  induction 1 as [|e reads He _ [IH1 IH2]]; [done|].
  destruct e; try done.
Qed.

(** The start stores nothing and requests nothing. *)
Lemma main_startup_quiet (w : world) (r : result unit) (w' : world)
    (evs : list event) :
  main_startup w = (r, w', evs) →
  stored_hashes evs = []
  ∧ requested evs = []
  ∧ requests_sent w' = requests_sent w
  ∧ (r = Ok tt → downloaded_hashes w' = hashes_of (scanned (fs w))).
Proof.
  pose proof (main_startup_run w) as Hrun. intros Hstart.
  destruct (fs w !! download_dir) as [[c rd|[] wr]|] eqn:Hdir.
  - rewrite Hrun in Hstart. by injection Hstart as <- <- <-.
  - destruct Hrun as (reads & Hrun & _ & Hall).
    rewrite Hrun in Hstart. injection Hstart as <- <- <-.
    destruct (reads_store_nothing _ Hall) as [Hs Hq].
    change (EvListdir download_dir :: reads ++ [EvMakedirs download_dir])
      with ([EvListdir download_dir] ++ reads ++ [EvMakedirs download_dir]).
    rewrite !stored_hashes_app, !requested_app, Hs, Hq. done.
  - rewrite Hrun in Hstart. by injection Hstart as <- <- <-.
  - rewrite Hrun in Hstart. destruct (cwd_writable w);
      injection Hstart as <- <- <-; split_and!; try done.
    intros _. cbn. by rewrite scanned_absent.
Qed.

Lemma counts_requests_app (w1 w2 w3 : world) (evs1 evs2 : list event) :
  counts_requests w1 w2 evs1 → counts_requests w2 w3 evs2 →
  counts_requests w1 w3 (evs1 ++ evs2).
Proof.
  unfold counts_requests. rewrite requested_app, length_app. lia.
Qed.

Lemma single_counts_requests (url : string) (w : world) :
  counts_requests w (download_single_image url w).1.2
    (download_single_image url w).2.
Proof.
  pose proof (download_single_image_run url w) as Hrun.
  destruct (download_single_image url w) as [[r w'] evs]. cbn [fst snd].
  unfold counts_requests. rewrite (run_one_request _ _ _ _ _ Hrun).
  apply run_returns in Hrun as (o & _ & _ & ->). simpl. lia.
Qed.

Lemma run_command_requested (c : command) (w : world) :
  requested (run_command c w).2 = urls_of_command c.
Proof.
  destruct c as [url|urls]; unfold run_command, urls_of_command.
  - rewrite filter_cons, filter_nil.
    destruct (Py.truthy (Py.strip url)) eqn:Hurl.
    + destruct (decide (true = true)); [|done].
      unfold bind, ret.
      pose proof (download_single_image_run (Py.strip url) w) as Hrun.
      destruct (download_single_image (Py.strip url) w) as [[r1 w1] evs1].
      apply run_returns in Hrun as (o & _ & -> & Hreq).
      cbn [snd]. by rewrite requested_app, Hreq.
    + by destruct (decide (false = true)).
  - destruct urls as [|url urls]; [done|].
    unfold bind, ret, download_multiple_images.
    destruct (download_loop_run (length (url :: urls)) 1 (url :: urls) 0 w)
      as (w' & evs & -> & Hreq & _).
    cbn [snd]. by rewrite app_nil_r.
Qed.

Lemma for_each_requested (cmds : list command) (w : world) :
  requested (for_each cmds run_command w).2 = urls_of cmds.
Proof.
  revert w. induction cmds as [|c cmds IH]; intros w; [done|].
  cbn [for_each]. unfold bind.
  pose proof (run_command_requested c w) as Hone.
  destruct (run_command_run c w) as (w1 & evs1 & Hrun & _).
  rewrite Hrun in Hone |- *. specialize (IH w1).
  destruct (for_each cmds run_command w1) as [[r w2] evs2].
  cbn [snd] in *. rewrite requested_app, Hone, IH. done.
Qed.

Lemma rstrip_rstrip (s : string) : Py.rstrip (Py.rstrip s) = Py.rstrip s.
Proof.
  induction s as [|c s IH]; [done|]. cbn [Py.rstrip].
  destruct (Py.rstrip s) as [|d r] eqn:Hr.
  - destruct (Py.isspace c) eqn:Hc; [done|]. cbn [Py.rstrip]. by rewrite Hc.
  - change (Py.rstrip (String c (String d r)))
      with (match Py.rstrip (String d r) with
            | EmptyString =>
                if Py.isspace c then EmptyString else String c EmptyString
            | String a t => String c (String a t)
            end).
    by rewrite IH.
Qed.

Lemma lstrip_head (s : string) :
  Py.lstrip s = EmptyString
  ∨ ∃ c t, Py.lstrip s = String c t ∧ Py.isspace c = false.
Proof.
  induction s as [|c s IH]; [by left|]. cbn [Py.lstrip].
  destruct (Py.isspace c) eqn:Hc; [done|]. right. by exists c, s.
Qed.

(** Stripping twice is stripping once. *)
Lemma strip_strip (s : string) : Py.strip (Py.strip s) = Py.strip s.
Proof.
  unfold Py.strip.
  assert (Py.lstrip (Py.rstrip (Py.lstrip s)) = Py.rstrip (Py.lstrip s)) as ->.
  { destruct (lstrip_head s) as [->|(c & t & -> & Hc)]; [done|].
    cbn [Py.rstrip]. destruct (Py.rstrip t); rewrite ?Hc; cbn [Py.lstrip];
      by rewrite Hc. }
  apply rstrip_rstrip.
Qed.

Lemma elem_of_urls_of_command (u : string) (c : command) :
  u ∈ urls_of_command c →
  u ≠ EmptyString
  ∧ match c with
    | Single url => u = Py.strip url
    | Multiple urls => ∃ v, v ∈ urls ∧ u = Py.strip v
    end.
Proof.
  destruct c as [url|urls]; unfold urls_of_command;
    rewrite list_elem_of_filter; intros [Ht Hin]; (split; [by apply truthy_true|]).
  - by apply list_elem_of_singleton in Hin.
  - apply list_elem_of_fmap in Hin as (v & -> & Hv). by exists v.
Qed.

(** Every URL of the commands typed is a line typed, stripped. *)
Lemma typed_urls (lines : list string) (place : waiting) (u : string) :
  u ∈ urls_of (commands_typed place lines) →
  u ≠ EmptyString
  ∧ ((∃ l, l ∈ lines ∧ u = Py.strip l)
     ∨ ∃ urls v, place = InList urls ∧ v ∈ urls ∧ u = Py.strip v).
Proof.
  revert place. induction lines as [|typed lines IH]; intros place.
  { by intros Hin%elem_of_nil. }
  assert (∀ place', u ∈ urls_of (commands_typed place' lines) →
            (∀ urls, place' ≠ InList urls) →
            u ≠ EmptyString ∧ ∃ l, l ∈ typed :: lines ∧ u = Py.strip l) as Hrest.
  { intros place' Hin Hplace.
    destruct (IH _ Hin) as [Hne [(l & Hl & ->)|(urls & v & -> & _)]].
    - split; [done|]. exists l. split; [by right|done].
    - by destruct (Hplace urls). }
  destruct place as [| |urls]; cbn [commands_typed].
  - intros Hin.
    assert (u ≠ EmptyString ∧ ∃ l, l ∈ typed :: lines ∧ u = Py.strip l) as [? ?];
      [|by split; [|left]].
    destruct (String.eqb (Py.strip typed) "1"); [by apply (Hrest AtUrl)|].
    destruct (String.eqb (Py.strip typed) "2").
    + destruct (IH _ Hin) as [Hne [(l & Hl & ->)|(urls & v & [= <-] & Hv & _)]].
      * split; [done|]. exists l. split; [by right|done].
      * by apply elem_of_nil in Hv.
    + destruct (String.eqb (Py.strip typed) "3"); [by apply elem_of_nil in Hin|].
      by apply (Hrest AtMenu).
  - unfold urls_of. rewrite bind_cons. intros [Hin|Hin]%elem_of_app.
    + apply elem_of_urls_of_command in Hin as [Hne ->].
      split; [done|]. left. exists typed. split; [by left|done].
    + destruct (Hrest AtMenu Hin) as [? ?]; [done|]. by split; [|left].
  - destruct (Py.truthy (Py.strip typed)).
    + intros Hin.
      destruct (IH _ Hin) as [Hne [(l & Hl & ->)|(urls' & v & [= <-] & Hv & ->)]].
      * split; [done|]. left. exists l. split; [by right|done].
      * split; [done|]. apply elem_of_app in Hv as [Hv|Hv].
        -- right. by exists urls, v.
        -- apply list_elem_of_singleton in Hv as ->. left. exists typed.
           split; [by left|]. apply strip_strip.
    + unfold urls_of. rewrite bind_cons. intros [Hin|Hin]%elem_of_app.
      * apply elem_of_urls_of_command in Hin as [Hne (v & Hv & ->)].
        split; [done|]. right. by exists urls, v.
      * destruct (Hrest AtMenu Hin) as [? ?]; [done|]. by split; [|left].
Qed.

(** A session from its start to its end. *)
Lemma session_run (cmds : list command) (w : world) (rs : result unit)
    (w' : world) (evs : list event) :
  session cmds w = (rs, w', evs) →
  (rs = Ok tt ∧ requested evs = urls_of cmds
   ∨ rs = Raise OSError ∧ requested evs = [])
  ∧ counts_requests w w' evs
  ∧ NoDup (stored_hashes evs)
  ∧ (∀ h, h ∈ stored_hashes evs → h ∈ downloaded_hashes w')
  ∧ (∀ p c, (p, c) ∈ scanned (fs w) → get_file_hash c ∉ stored_hashes evs).
Proof.
  unfold session, bind.
  destruct (main_startup w) as [[r0 w0] evs0] eqn:Hstart.
  pose proof (main_startup_indexed _ _ _ _ Hstart) as (_ & _ & _ & Hr0).
  destruct (main_startup_quiet _ _ _ _ Hstart) as (Hs0 & Hq0 & Hn0 & Hh0).
  destruct Hr0 as [->| ->].
  2:{ intros [= <- <- <-]. rewrite Hs0. split_and!.
      - by right.
      - unfold counts_requests. rewrite Hq0, Hn0. simpl. lia.
      - constructor.
      - by intros h Hh%elem_of_nil.
      - intros p c _ Hh. by apply elem_of_nil in Hh. }
  destruct (for_each cmds run_command w0) as [[r1 w1] evs1] eqn:Hcmds.
  intros [= <- <- <-].
  pose proof (for_each_requested cmds w0) as Hq1. rewrite Hcmds in Hq1.
  cbn [snd] in Hq1.
  destruct (for_each_run_command cmds w0) as (w1' & evs1' & Hok & _).
  rewrite Hcmds in Hok. injection Hok as -> <- <-.
  pose proof (for_each_run_command_invariant counts_requests
                (λ w, eq_sym (Nat.add_0_r (requests_sent w)))
                (λ w _ _, eq_sym (Nat.add_0_r (requests_sent w)))
                counts_requests_app single_counts_requests
                cmds w0 _ _ _ Hcmds) as Hcount.
  pose proof (for_each_run_command_invariant stores_new
                stores_new_nil (λ w _ _, stores_new_nil w)
                stores_new_app single_stores_new
                cmds w0 _ _ _ Hcmds) as (Hnd & Hsub & Hnew).
  rewrite stored_hashes_app, Hs0, requested_app, Hq0. cbn [app].
  split_and!.
  - by left.
  - unfold counts_requests in *. rewrite requested_app, Hq0. cbn [app]. lia.
  - done.
  - intros h Hh. by apply Hnew in Hh as [_ ?].
  - intros p c Hpc Hh. apply Hnew in Hh as [Hh _]. apply Hh.
    rewrite (Hh0 eq_refl). apply elem_of_hashes_of. by exists p, c.
Qed.

(** X16.  In one run of [main] no content is stored twice: the contents
    stored in full have hashes that differ from one another and from the hash
    of every file the scan at the start has read, and each of them is in the
    hash set at the end. *)
Theorem main_stores_each_hash_once (w : world) (lines : list string)
    (r : ending unit) (s' : console) (evs : list main_event) :
  main (Console w lines) = (r, s', evs) →
  NoDup (stored_hashes (fetcher_events evs))
  ∧ (∀ h, h ∈ stored_hashes (fetcher_events evs) →
          h ∈ downloaded_hashes (the_world s'))
  ∧ (∀ p c, (p, c) ∈ scanned (fs w) →
            get_file_hash c ∉ stored_hashes (fetcher_events evs)).
Proof.
  intros Hmain.
  destruct (main_run w lines) as (r' & s'' & evs' & rs & Hmain' & Hsess & _).
  rewrite Hmain in Hmain'. injection Hmain' as <- <- <-.
  by destruct (session_run _ _ _ _ _ Hsess) as (_ & _ & Hnd & Hin & Hscan).
Qed.

(** X16 on the sample run, which stores two contents beside the one file
    that was there. *)
Lemma main_stores_each_hash_once_witness :
  NoDup (stored_hashes (fetcher_events sample_main.2))
  ∧ (∀ h, h ∈ stored_hashes (fetcher_events sample_main.2) →
          h ∈ downloaded_hashes (the_world sample_main.1.2))
  ∧ (∀ p c, (p, c) ∈ scanned (fs counting_collection) →
            get_file_hash c ∉ stored_hashes (fetcher_events sample_main.2)).
Proof.
  exact (main_stores_each_hash_once counting_collection sample_stdin
           sample_main.1.1 sample_main.1.2 sample_main.2 sample_main_eq).
Defined.

(** X17.  [main] requests what was typed and nothing else: unless the start
    fails, the URLs requested are, in order, the URLs of the commands typed;
    each of them is a line typed, stripped, and is not empty; and the count
    of requests goes up by one for each of them. *)
Theorem main_requests_typed_urls (w : world) (lines : list string)
    (r : ending unit) (s' : console) (evs : list main_event) :
  main (Console w lines) = (r, s', evs) →
  (r ≠ Uncaught OSError →
   requested (fetcher_events evs) = urls_of (commands_typed AtMenu lines))
  ∧ (r = Uncaught OSError → requested (fetcher_events evs) = [])
  ∧ (∀ u, u ∈ requested (fetcher_events evs) →
          u ≠ EmptyString ∧ ∃ l, l ∈ lines ∧ u = Py.strip l)
  ∧ requests_sent (the_world s')
    = (requests_sent w + length (requested (fetcher_events evs)))%nat.
Proof.
  intros Hmain.
  destruct (main_run w lines) as (r' & s'' & evs' & rs & Hmain' & Hsess & _ & _ & Hr).
  rewrite Hmain in Hmain'. injection Hmain' as <- <- <-.
  destruct (session_run _ _ _ _ _ Hsess) as (Hreq & Hcount & _).
  split_and!; [| | |exact Hcount].
  - intros Hgood. destruct Hreq as [[_ ?]|[-> _]]; [done|].
    by destruct Hr as (_ & ? & _).
  - intros ->. destruct Hreq as [[-> _]|[_ ?]]; [|done].
    destruct Hr as (Hr & _). by destruct (exit_typed AtMenu lines).
  - intros u Hu. destruct Hreq as [[_ Hreq]|[_ Hreq]]; rewrite Hreq in Hu.
    + apply typed_urls in Hu as [Hne [?|(urls & v & [=] & _)]]. done.
    + by apply elem_of_nil in Hu.
Qed.

(** X17 on the sample run: three requests, for the URL of choice 1 and the
    two URLs of choice 2. *)
Lemma main_requests_typed_urls_witness :
  (sample_main.1.1 ≠ Uncaught OSError →
   requested (fetcher_events sample_main.2)
   = urls_of (commands_typed AtMenu sample_stdin))
  ∧ (sample_main.1.1 = Uncaught OSError →
     requested (fetcher_events sample_main.2) = [])
  ∧ (∀ u, u ∈ requested (fetcher_events sample_main.2) →
          u ≠ EmptyString ∧ ∃ l, l ∈ sample_stdin ∧ u = Py.strip l)
  ∧ requests_sent (the_world sample_main.1.2)
    = (requests_sent counting_collection
       + length (requested (fetcher_events sample_main.2)))%nat.
Proof.
  exact (main_requests_typed_urls counting_collection sample_stdin
           sample_main.1.1 sample_main.1.2 sample_main.2 sample_main_eq).
Defined.
